(** * plugin-better-auth: the request-scoped authorization check

    A shallow embedding of [src/plugin.ts] (the variant with the Redis
    cache) and [src/class.ts].  Asynchronous code is modelled in a state
    and exception monad over a [World] that holds what the plugin talks to:
    the Better Auth server behind [client.getSession()], the Redis store,
    the plugin's [payloadByRequest] WeakMap, and the list of outbound calls
    made so far. *)

From Stdlib Require Import ZArith Ascii String List Bool Lia.
From stdpp Require Import base gmap strings list.

Local Open Scope Z_scope.
Local Set Warnings "-register-all".

(** ** JavaScript values *)

(** The data that travels through the plugin is what the provider returned
    and what [JSON.parse] yields; numbers are kept as integers, only their
    being zero is ever observed.  The provider's session and user carry
    [Date] objects, kept here with their ISO text; [JSON.parse] never
    yields one. *)
Inductive value : Type :=
| VUndefined
| VNull
| VBool (b : bool)
| VNum (n : Z)
| VStr (s : string)
| VDate (iso : string)
| VArr (items : list value)
| VObj (props : list (string * value)).

Definition is_empty (s : string) : bool :=
  match s with EmptyString => true | String _ _ => false end.

(** [!!v] *)
Definition truthy (v : value) : bool :=
  match v with
  | VUndefined | VNull => false
  | VBool b => b
  | VNum n => negb (n =? 0)
  | VStr s => negb (is_empty s)
  | VDate _ | VArr _ | VObj _ => true
  end.

Fixpoint own_property (name : string) (props : list (string * value)) : option value :=
  match props with
  | [] => None
  | (k, v) :: rest => if String.eqb k name then Some v else own_property name rest
  end.

(** [v.name] for a [v] that is neither [undefined] nor [null], and a [name]
    that no built-in prototype defines ([session], [user], [role]). *)
Definition member (v : value) (name : string) : value :=
  match v with
  | VObj props => default VUndefined (own_property name props)
  | _ => VUndefined
  end.

Definition nullish (v : value) : bool :=
  match v with VUndefined | VNull => true | _ => false end.

(** [v?.name] *)
Definition optional_member (v : value) (name : string) : value :=
  if nullish v then VUndefined else member v name.

(** [a || b] *)
Definition or_else (a b : value) : value := if truthy a then a else b.

(** [allowedRoles.includes(v)] on an array of strings: only a string can be
    found. *)
Definition includes (l : list string) (v : value) : bool :=
  match v with
  | VStr s => existsb (String.eqb s) l
  | _ => false
  end.

(** ** Errors *)

Record GraphQLErrorExtensions := { http_status : option Z }.
Record GraphQLErrorOptions := { extensions : option GraphQLErrorExtensions }.

Inductive exn : Type :=
| GraphQLError (message : string) (options : GraphQLErrorOptions)
| Error (message : string)
| TypeError
| SyntaxError
| ForeignError (name : string).

(** [ex instanceof GraphQLError] *)
Definition instanceof_GraphQLError (ex : exn) : bool :=
  match ex with GraphQLError _ _ => true | _ => false end.

Definition createGraphQLError (message : string) (options : GraphQLErrorOptions) : exn :=
  GraphQLError message options.

(** [{ extensions: { http: { status: 401 } }, ...options }] *)
Definition spread_options (base : GraphQLErrorOptions) (options : option GraphQLErrorOptions)
  : GraphQLErrorOptions :=
  match options with
  | None => base
  | Some o =>
      {| extensions := match extensions o with Some e => Some e | None => extensions base end |}
  end.

Definition unauthorizedError (message : string) (options : option GraphQLErrorOptions) : exn :=
  createGraphQLError message
    (spread_options {| extensions := Some {| http_status := Some 401 |} |} options).

Inductive Result (A : Type) : Type :=
| Ok (a : A)
| Throw (e : exn).
Arguments Ok {A} a.
Arguments Throw {A} e.

(** ** Configuration and the objects of the plugin *)

Record ClientPlugin := { plugin_id : string }.

Record AuthClient := {
  client_baseURL : option string;
  client_plugins : option (list ClientPlugin);
  client_token : string
}.

(** [new BetterAuth({ client, session, user })] of [class.ts]. *)
Record BetterAuth := {
  client : AuthClient;
  session : value;
  user : value
}.

Record Request := {
  request_id : nat;
  headers : gmap string string
}.

(** [request.headers.get(name)] for a lower-case [name]. *)
Definition headers_get (r : Request) (name : string) : option string :=
  headers r !! name.

Record GetTokenParams := {
  request : Request;
  serverContext : option value;
  url : string
}.

(** What a field of the GraphQL context can hold. *)
Inductive ContextValue :=
| CtxRequest (r : Request)
| CtxAuth (auth : BetterAuth)
| CtxValue (v : value).

Record Messages := {
  invalidToken : string;
  expiredToken : string;
  invalidPermissions : string;
  authRequired : string
}.

(** Handles: the connected Redis client of the options, whose store is in
    the [World], and the one WeakMap of a plugin instance. *)
Inductive RedisClient := redis_client.
Inductive PayloadMap := payload_map.

Record BetterAuthPluginOptions := {
  baseURL : option string;
  redis : option RedisClient;
  cachePrefix : option string;
  cacheExpiration : option Z;
  plugins : option (list ClientPlugin);
  suppressRoleWarning : option bool;
  extendContextField : option string;
  allowedRoles : option (list string);
  requireAuth : option bool;
  messages : option Messages;
  getToken : option (GetTokenParams -> Result (option string))
}.

Definition default_messages : Messages := {|
  invalidToken := "The provided access token is invalid.";
  expiredToken := "An invalid or expired access token was provided.";
  invalidPermissions :=
    "You do not have the necessary permissions to access this resource.";
  authRequired := "Authentication is required to access this resource."
|}.

(** ** The world outside the plugin *)

Inductive Event :=
| SessionLookup (c : AuthClient)
| CacheGet (key : string)
| CacheSetEx (key : string) (seconds : Z) (payload : string).

Record World := {
  env_BETTER_AUTH_URL : option string;
  (** whether [createAuthClient] of the library builds a client for this
      base URL; it throws for a base URL that it cannot parse *)
  client_accepted : option string -> bool;
  (** the [data] that [client.getSession()] resolves with, or what it throws *)
  provider : AuthClient -> Result value;
  redis_online : bool;
  (** key to (value, time of expiry) *)
  redis_keys : gmap string (string * Z);
  clock : Z;
  payloadByRequest : gmap nat BetterAuth;
  trace : list Event
}.

Definition record_event (ev : Event) (w : World) : World :=
  {| env_BETTER_AUTH_URL := env_BETTER_AUTH_URL w;
     client_accepted := client_accepted w;
     provider := provider w;
     redis_online := redis_online w;
     redis_keys := redis_keys w;
     clock := clock w;
     payloadByRequest := payloadByRequest w;
     trace := trace w ++ [ev] |}.

Definition store_key (key : string) (entry : string * Z) (w : World) : World :=
  {| env_BETTER_AUTH_URL := env_BETTER_AUTH_URL w;
     client_accepted := client_accepted w;
     provider := provider w;
     redis_online := redis_online w;
     redis_keys := <[key := entry]> (redis_keys w);
     clock := clock w;
     payloadByRequest := payloadByRequest w;
     trace := trace w |}.

Definition store_payload (r : Request) (auth : BetterAuth) (w : World) : World :=
  {| env_BETTER_AUTH_URL := env_BETTER_AUTH_URL w;
     client_accepted := client_accepted w;
     provider := provider w;
     redis_online := redis_online w;
     redis_keys := redis_keys w;
     clock := clock w;
     payloadByRequest := <[request_id r := auth]> (payloadByRequest w);
     trace := trace w |}.

(** [dt] seconds pass and nothing else happens. *)
Definition elapse (dt : Z) (w : World) : World :=
  {| env_BETTER_AUTH_URL := env_BETTER_AUTH_URL w;
     client_accepted := client_accepted w;
     provider := provider w;
     redis_online := redis_online w;
     redis_keys := redis_keys w;
     clock := clock w + dt;
     payloadByRequest := payloadByRequest w;
     trace := trace w |}.

(** The provider answers otherwise from now on: sessions expire and are
    revoked. *)
Definition answering (p : AuthClient -> Result value) (w : World) : World :=
  {| env_BETTER_AUTH_URL := env_BETTER_AUTH_URL w;
     client_accepted := client_accepted w;
     provider := p;
     redis_online := redis_online w;
     redis_keys := redis_keys w;
     clock := clock w;
     payloadByRequest := payloadByRequest w;
     trace := trace w |}.

(** ** The monad of the asynchronous code *)

Definition M (A : Type) : Type := World -> Result A * World.

Definition ret {A} (a : A) : M A := fun w => (Ok a, w).
Definition throw {A} (e : exn) : M A := fun w => (Throw e, w).
Definition bind {A B} (m : M A) (k : A -> M B) : M B :=
  fun w => match m w with
           | (Ok a, w') => k a w'
           | (Throw e, w') => (Throw e, w')
           end.
Definition try_catch {A} (body : M A) (handler : exn -> M A) : M A :=
  fun w => match body w with
           | (Ok a, w') => (Ok a, w')
           | (Throw e, w') => handler e w'
           end.
Definition lift {A} (r : Result A) : M A := fun w => (r, w).

Notation "x <- m ;; k" := (bind m (fun x => k))
  (at level 100, m at next level, right associativity).
Notation "m ;;; k" := (bind m (fun _ => k))
  (at level 100, right associativity).

(** [await client.getSession()], destructured to its [data]. *)
Definition getSession (c : AuthClient) : M value :=
  fun w => (provider w c, record_event (SessionLookup c) w).

Definition live_entry (w : World) (key : string) : option string :=
  match redis_keys w !! key with
  | Some (v, expiry) => if clock w <? expiry then Some v else None
  | None => None
  end.

(** [await redis.get(key)] *)
Definition redis_get (key : string) : M (option string) :=
  fun w =>
    let w' := record_event (CacheGet key) w in
    if redis_online w then (Ok (live_entry w key), w')
    else (Throw (ForeignError "ClientClosedError"), w').

(** [await redis.setEx(key, seconds, v)]; Redis refuses a time to live that
    is not positive. *)
Definition redis_setEx (key : string) (seconds : Z) (v : string) : M unit :=
  fun w =>
    let w' := record_event (CacheSetEx key seconds v) w in
    if negb (redis_online w) then (Throw (ForeignError "ClientClosedError"), w')
    else if 0 <? seconds then (Ok tt, store_key key (v, clock w + seconds) w')
    else (Throw (ForeignError "ErrorReply"), w').

(** [payloadByRequest.set(request, auth)] *)
Definition payload_set (r : Request) (auth : BetterAuth) : M unit :=
  fun w => (Ok tt, store_payload r auth w).

(** [payloadByRequest.get(request)] *)
Definition payload_get (r : Request) : M (option BetterAuth) :=
  fun w => (Ok (payloadByRequest w !! request_id r), w).

(** [v.name], which throws a TypeError on [undefined] and [null]. *)
Definition get_member (v : value) (name : string) : M value :=
  if nullish v then throw TypeError else ret (member v name).

(** ** [plugin.ts] *)

Definition dquote : string := String (ascii_of_nat 34) EmptyString.

(** [s.split(sep)] for a separator of one character. *)
Fixpoint split (sep : ascii) (s : string) : list string :=
  match s with
  | EmptyString => [EmptyString]
  | String c rest =>
      if Ascii.eqb c sep then EmptyString :: split sep rest
      else match split sep rest with
           | [] => [String c EmptyString]
           | piece :: pieces => String c piece :: pieces
           end
  end.

(** A template literal prints an [undefined] as the word. *)
Definition template_hole (s : option string) : string := default "undefined" s.

Definition defaultGetToken (params : GetTokenParams) : Result (option string) :=
  let header := headers_get (request params) "authorization" in
  match header with
  | None => Ok None
  | Some header =>
      if is_empty header then Ok None
      else
        let parts := split " " header in
        let type := parts !! 0%nat in
        let token := parts !! 1%nat in
        if negb (bool_decide (type = Some "Bearer")) then
          Throw (unauthorizedError
                   ("Unsupported token type provided: " +:+ dquote +:+ template_hole type +:+ dquote)
                   None)
        else Ok token
  end.

Definition handleAuthData (data : value) (client : AuthClient)
    (allowedRoles : list string) (messages : Messages)
    (payloadByRequest : option PayloadMap) (request : option Request) : M BetterAuth :=
  (if (0 <? length allowedRoles)%nat then
     user <- get_member data "user" ;;
     role <- get_member user "role" ;;
     let userRole := or_else role (VStr "user") in
     if negb (includes allowedRoles userRole) then
       throw (unauthorizedError (invalidPermissions messages) None)
     else ret tt
   else ret tt) ;;;
  session <- get_member data "session" ;;
  user <- get_member data "user" ;;
  let auth := {| client := client; session := session; user := user |} in
  match payloadByRequest, request with
  | Some _, Some request => payload_set request auth
  | _, _ => ret tt
  end ;;;
  ret auth.

Section Authorize.

(** [JSON.stringify] and [JSON.parse] of the runtime; a text that does not
    parse makes [JSON.parse] throw a SyntaxError. *)
Variable JSON_stringify : value -> string.
Variable JSON_parse : string -> option value.

Definition parse_json (text : string) : M value :=
  match JSON_parse text with
  | Some v => ret v
  | None => throw SyntaxError
  end.

(** [!!cachedData] for what [redis.get] resolved with: [null] and the
    empty string are falsy. *)
Definition truthy_text (cachedData : option string) : bool :=
  match cachedData with
  | Some text => negb (is_empty text)
  | None => false
  end.

(** The client that [createAuthClient] returns when it returns one. *)
Definition bound_client (baseURL : option string)
    (plugins : option (list ClientPlugin)) (token : string) : AuthClient :=
  {| client_baseURL := baseURL; client_plugins := plugins; client_token := token |}.

(** [createAuthClient({ baseURL, plugins, fetchOptions: { auth: { type:
    'Bearer', token } } })]: the library throws a BetterAuthError for a
    base URL that it cannot parse. *)
Definition createAuthClient (baseURL : option string)
    (plugins : option (list ClientPlugin)) (token : string) : M AuthClient :=
  fun w =>
    if client_accepted w baseURL then (Ok (bound_client baseURL plugins token), w)
    else (Throw (ForeignError "BetterAuthError"), w).

Definition authorize (options : BetterAuthPluginOptions) (token : string)
    (payloadByRequest : option PayloadMap) (request : option Request) : M BetterAuth :=
  fun w =>
  let baseURL := match baseURL options with
                 | Some u => Some u
                 | None => env_BETTER_AUTH_URL w
                 end in
  let redis := redis options in
  let cachePrefix := default "tokens" (cachePrefix options) in
  let cacheExpiration := default 5 (cacheExpiration options) in
  let plugins := plugins options in
  let messages := default default_messages (messages options) in
  let allowedRoles := default [] (allowedRoles options) in
  (client <- createAuthClient baseURL plugins token ;;
   match redis with
   | None =>
       try_catch
         (data <- getSession client ;;
          if negb (truthy (optional_member data "session")) then
            throw (unauthorizedError (invalidToken messages) None)
          else
            handleAuthData data client allowedRoles messages payloadByRequest request)
         (fun _ => throw (unauthorizedError (invalidToken messages) None))
   | Some _ =>
       let cacheKey := cachePrefix +:+ ":" +:+ token in
       cachedData <- redis_get cacheKey ;;
       if negb (truthy_text cachedData) then
         try_catch
           (data <- getSession client ;;
            if negb (truthy (optional_member data "session")) then
              throw (unauthorizedError (invalidToken messages) None)
            else
              redis_setEx cacheKey cacheExpiration (JSON_stringify data) ;;;
              handleAuthData data client allowedRoles messages payloadByRequest request)
           (fun _ => throw (unauthorizedError (invalidToken messages) None))
       else
         try_catch
           (data <- parse_json (default EmptyString cachedData) ;;
            handleAuthData data client allowedRoles messages payloadByRequest request)
           (fun ex =>
              if instanceof_GraphQLError ex then throw ex
              else throw (unauthorizedError (invalidToken messages) None))
   end) w.

(** *** The two hooks that [useBetterAuth] returns *)

(** The only message [useBetterAuth] reads; its default object has this
    one field. *)
Definition hook_authRequired (options : BetterAuthPluginOptions) : string :=
  match messages options with
  | Some m => authRequired m
  | None => "Authentication is required to access this resource."
  end.

Definition onRequestParse (options : BetterAuthPluginOptions)
    (params : GetTokenParams) : M unit :=
  let requireAuth := default false (requireAuth options) in
  let getToken := default defaultGetToken (getToken options) in
  token <- lift (getToken params) ;;
  match token with
  | Some token =>
      authorize options token (Some payload_map) (Some (request params)) ;;;
      ret tt
  | None =>
      if requireAuth then throw (unauthorizedError (hook_authRequired options) None)
      else ret tt
  end.

Definition request_missing : string :=
  "Request is not available on context! Make sure you use this plugin with GraphQL Yoga.".

(** [extendContext] merges its argument into the context; the hook is
    modelled as returning the context that results. *)
Definition onContextBuilding (options : BetterAuthPluginOptions)
    (context : gmap string ContextValue) : M (gmap string ContextValue) :=
  let extendContextField := default "auth" (extendContextField options) in
  match context !! "request" with
  | None | Some (CtxValue VUndefined) | Some (CtxValue VNull) =>
      throw (Error request_missing)
  | Some (CtxRequest request) =>
      payload <- payload_get request ;;
      match payload with
      | Some payload => ret (<[extendContextField := CtxAuth payload]> context)
      | None => ret context
      end
  | Some _ => ret context
  end.

End Authorize.

(** ** Derived notions used in the statements *)

(** [user.role || 'user'] for the [user] of [data]. *)
Definition userRole (data : value) : value :=
  or_else (member (member data "user") "role") (VStr "user").

(** The identity that [handleAuthData] builds from [data]. *)
Definition identity_of (c : AuthClient) (data : value) : BetterAuth :=
  {| client := c; session := member data "session"; user := member data "user" |}.

(** The role check of [handleAuthData] lets [data] through. *)
Definition role_check_passes (allowedRoles : list string) (data : value) : bool :=
  match allowedRoles with
  | [] => true
  | _ :: _ => negb (nullish (member data "user")) && includes allowedRoles (userRole data)
  end.

(** The world after [if (payloadByRequest && request) payloadByRequest.set(request, auth)]. *)
Definition recorded (pm : option PayloadMap) (rq : option Request) (auth : BetterAuth)
    (w : World) : World :=
  match pm, rq with
  | Some _, Some r => store_payload r auth w
  | _, _ => w
  end.

(** The client that [authorize] creates. *)
Definition base_url (options : BetterAuthPluginOptions) (w : World) : option string :=
  match baseURL options with Some u => Some u | None => env_BETTER_AUTH_URL w end.

Definition client_for (options : BetterAuthPluginOptions) (token : string) (w : World)
  : AuthClient :=
  bound_client (base_url options w) (plugins options) token.

Definition effective_messages (options : BetterAuthPluginOptions) : Messages :=
  default default_messages (messages options).

Definition cache_key (options : BetterAuthPluginOptions) (token : string) : string :=
  default "tokens" (cachePrefix options) +:+ ":" +:+ token.

Definition is_lookup (ev : Event) : bool :=
  match ev with SessionLookup _ => true | _ => false end.
Definition is_cache_read (ev : Event) : bool :=
  match ev with CacheGet _ => true | _ => false end.
Definition is_cache_write (ev : Event) : bool :=
  match ev with CacheSetEx _ _ _ => true | _ => false end.
Definition count (p : Event -> bool) (evs : list Event) : nat :=
  length (List.filter p evs).

Fixpoint has_space (s : string) : bool :=
  match s with
  | EmptyString => false
  | String c rest => Ascii.eqb c " " || has_space rest
  end.

(** The message of the extractor for a scheme it does not support. *)
Definition unsupported (scheme : string) : string :=
  "Unsupported token type provided: " +:+ dquote +:+ scheme +:+ dquote.

(** The extractor as the specification words it: the header is cut at its
    first space only, and what follows that space is the credential. *)
Fixpoint cut_at_first_space (s : string) : string * string :=
  match s with
  | EmptyString => (EmptyString, EmptyString)
  | String c rest =>
      if Ascii.eqb c " " then (EmptyString, rest)
      else let '(scheme, v) := cut_at_first_space rest in (String c scheme, v)
  end.

Definition spec_extract (header : option string) : Result (option string) :=
  match header with
  | None => Ok None
  | Some header =>
      let '(scheme, v) := cut_at_first_space header in
      if String.eqb scheme "Bearer" then Ok (Some v)
      else Throw (unauthorizedError (unsupported scheme) None)
  end.

(** ** Sample data *)

Fixpoint value_eqb (a b : value) {struct a} : bool :=
  match a, b with
  | VUndefined, VUndefined => true
  | VNull, VNull => true
  | VBool x, VBool y => Bool.eqb x y
  | VNum x, VNum y => x =? y
  | VStr x, VStr y => String.eqb x y
  | VDate x, VDate y => String.eqb x y
  | VArr xs, VArr ys =>
      (fix items xs ys :=
         match xs, ys with
         | [], [] => true
         | x :: xs', y :: ys' => value_eqb x y && items xs' ys'
         | _, _ => false
         end) xs ys
  | VObj ps, VObj qs =>
      (fix props ps qs :=
         match ps, qs with
         | [], [] => true
         | (k, x) :: ps', (k', y) :: qs' => String.eqb k k' && value_eqb x y && props ps' qs'
         | _, _ => false
         end) ps qs
  | _, _ => false
  end.

Definition quoted (s : string) : string := dquote +:+ s +:+ dquote.

Definition sample_session : value := VObj [("id", VStr "s1"); ("userId", VStr "u1")].
Definition sample_user (role : string) : value := VObj [("id", VStr "u1"); ("role", VStr role)].
Definition sample_data (role : string) : value :=
  VObj [("session", sample_session); ("user", sample_user role)].
Definition sessionless_data : value := VObj [("user", sample_user "admin")].

Definition session_text : string :=
  "{" +:+ quoted "id" +:+ ":" +:+ quoted "s1" +:+ ","
      +:+ quoted "userId" +:+ ":" +:+ quoted "u1" +:+ "}".
Definition user_text (role : string) : string :=
  "{" +:+ quoted "id" +:+ ":" +:+ quoted "u1" +:+ ","
      +:+ quoted "role" +:+ ":" +:+ quoted role +:+ "}".
Definition data_text (role : string) : string :=
  "{" +:+ quoted "session" +:+ ":" +:+ session_text +:+ ","
      +:+ quoted "user" +:+ ":" +:+ user_text role +:+ "}".
(** A session as the provider returns it, with a [Date]. *)
Definition dated_session : value :=
  VObj [("id", VStr "s1"); ("expiresAt", VDate "2030-01-01T00:00:00.000Z")].
Definition dated_data : value :=
  VObj [("session", dated_session); ("user", sample_user "admin")].
Definition dated_text : string :=
  "{" +:+ quoted "session" +:+ ":{" +:+ quoted "id" +:+ ":" +:+ quoted "s1" +:+ ","
      +:+ quoted "expiresAt" +:+ ":" +:+ quoted "2030-01-01T00:00:00.000Z" +:+ "},"
      +:+ quoted "user" +:+ ":" +:+ user_text "admin" +:+ "}".

(** What [JSON.stringify] makes of a value before it prints it: a [Date]
    becomes its ISO text. *)
Fixpoint as_json (v : value) : value :=
  match v with
  | VDate iso => VStr iso
  | VArr items => VArr (List.map as_json items)
  | VObj props => VObj (List.map (fun p => (fst p, as_json (snd p))) props)
  | _ => v
  end.

Definition sessionless_text : string :=
  "{" +:+ quoted "user" +:+ ":" +:+ user_text "admin" +:+ "}".

(** JSON texts and the values they stand for; the sample codec below is
    [JSON.stringify] and [JSON.parse] restricted to these rows. *)
Definition json_table : list (string * value) :=
  [ (data_text "admin", sample_data "admin");
    (data_text "editor", sample_data "editor");
    (data_text EmptyString, sample_data EmptyString);
    (sessionless_text, sessionless_data);
    (dated_text, as_json dated_data);
    ("null", VNull);
    ("{}", VObj []) ].

Definition sample_parse (text : string) : option value :=
  snd <$> List.find (fun row => String.eqb (fst row) text) json_table.

Definition sample_stringify (v : value) : string :=
  match List.find (fun row => value_eqb (snd row) (as_json v)) json_table with
  | Some row => fst row
  | None => "null"
  end.

Definition sample_options (cache : option RedisClient) (roles : option (list string))
    (required : option bool) : BetterAuthPluginOptions :=
  {| baseURL := None; redis := cache; cachePrefix := None; cacheExpiration := None;
     plugins := None; suppressRoleWarning := None; extendContextField := None;
     allowedRoles := roles; requireAuth := required; messages := None;
     getToken := None |}.

(** A library that parses every base URL but one. *)
Definition sample_accepts (baseURL : option string) : bool :=
  negb (bool_decide (baseURL = Some "not a url")).

(** Options whose base URL the sample library refuses. *)
Definition misconfigured_options (cache : option RedisClient) (roles : option (list string))
    (required : option bool) : BetterAuthPluginOptions :=
  {| baseURL := Some "not a url"; redis := cache; cachePrefix := None;
     cacheExpiration := None; plugins := None; suppressRoleWarning := None;
     extendContextField := None; allowedRoles := roles; requireAuth := required;
     messages := None; getToken := None |}.

(** Options of an application that requires authentication and reads the
    credential with an extractor of its own, which finds the token [T]
    whatever the headers are. *)
Definition cookie_options : BetterAuthPluginOptions :=
  {| baseURL := None; redis := None; cachePrefix := None; cacheExpiration := None;
     plugins := None; suppressRoleWarning := None; extendContextField := None;
     allowedRoles := None; requireAuth := Some true; messages := None;
     getToken := Some (fun _ => Ok (Some "T")) |}.

Definition sample_world (answer : Result value) (keys : gmap string (string * Z)) : World :=
  {| env_BETTER_AUTH_URL := Some "https://auth.example";
     client_accepted := sample_accepts;
     provider := fun _ => answer;
     redis_online := true;
     redis_keys := keys;
     clock := 100;
     payloadByRequest := ∅;
     trace := [] |}.

Definition sample_request (header : option string) : Request :=
  {| request_id := 7;
     headers := match header with
                | Some h => {[ "authorization" := h ]}
                | None => ∅
                end |}.

Definition sample_params (header : option string) : GetTokenParams :=
  {| request := sample_request header; serverContext := None; url := "http://localhost/graphql" |}.

(** ** The earlier variant of [plugin.ts], without a cache *)

(** [onRequestParse] of the variant that has no [authorize]: the lookup,
    the role check and the recording are written out in the hook, inside
    one [try] whose [catch] lets a GraphQL error through.  That variant
    reads [process.env.BETTER_AUTH_URL] once, when [useBetterAuth] runs:
    [env_at_setup] is what it read. *)
Definition onRequestParse_legacy (env_at_setup : option string)
    (options : BetterAuthPluginOptions) (params : GetTokenParams) : M unit :=
  let baseURL := match baseURL options with
                 | Some u => Some u
                 | None => env_at_setup
                 end in
  let plugins := plugins options in
  let allowedRoles := default [] (allowedRoles options) in
  let requireAuth := default false (requireAuth options) in
  let messages := default default_messages (messages options) in
  let getToken := default defaultGetToken (getToken options) in
  token <- lift (getToken params) ;;
  match token with
  | Some token =>
      try_catch
        (client <- createAuthClient baseURL plugins token ;;
         data <- getSession client ;;
         if negb (truthy (optional_member data "session")) then
           throw (unauthorizedError (invalidToken messages) None)
         else
           (if (0 <? length allowedRoles)%nat then
              user <- get_member data "user" ;;
              role <- get_member user "role" ;;
              let userRole := or_else role (VStr "user") in
              if negb (includes allowedRoles userRole) then
                throw (unauthorizedError (invalidPermissions messages) None)
              else ret tt
            else ret tt) ;;;
           session <- get_member data "session" ;;
           user <- get_member data "user" ;;
           payload_set (request params)
             {| client := client; session := session; user := user |})
        (fun ex =>
           if instanceof_GraphQLError ex then throw ex
           else throw (unauthorizedError (invalidToken messages) None))
  | None =>
      if requireAuth then throw (unauthorizedError (authRequired messages) None)
      else ret tt
  end.

(** The 401 extension that [unauthorizedError] attaches. *)
Definition http_401 : GraphQLErrorOptions :=
  {| extensions := Some {| http_status := Some 401 |} |}.

(** * Properties *)

(** ** Strings *)

Lemma split_no_space (s : string) :
  has_space s = false -> split " " s = [s].
Proof.
  induction s as [|c rest IH]; simpl; [reflexivity|].
  intros H. apply orb_false_iff in H as [Hc Hrest].
  rewrite Hc, (IH Hrest). reflexivity.
Qed.

Lemma split_at_space (a b : string) :
  has_space a = false -> split " " (a +:+ String " " b) = a :: split " " b.
Proof.
  induction a as [|c rest IH]; simpl; [reflexivity|].
  intros H. apply orb_false_iff in H as [Hc Hrest].
  rewrite Hc, (IH Hrest). reflexivity.
Qed.

Lemma is_empty_app_space (a b : string) : is_empty (a +:+ String " " b) = false.
Proof. destruct a; reflexivity. Qed.

Lemma is_empty_false (s : string) : s <> EmptyString -> is_empty s = false.
Proof. destruct s; [congruence | reflexivity]. Qed.

Lemma scheme_test (scheme : string) :
  negb (bool_decide (Some scheme = Some "Bearer")) = negb (String.eqb scheme "Bearer").
Proof.
  f_equal. destruct (String.eqb_spec scheme "Bearer") as [->|Hne].
  - apply bool_decide_eq_true. reflexivity.
  - apply bool_decide_eq_false. congruence.
Qed.

(** What the extractor does once the pieces of the header are known. *)
Lemma defaultGetToken_pieces (params : GetTokenParams) (header scheme : string)
    (pieces : list string) :
  headers_get (request params) "authorization" = Some header ->
  is_empty header = false ->
  split " " header = scheme :: pieces ->
  defaultGetToken params =
    if String.eqb scheme "Bearer" then Ok (pieces !! 0%nat)
    else Throw (unauthorizedError (unsupported scheme) None).
Proof.
  intros Hh Hne Hsplit. unfold defaultGetToken. rewrite Hh, Hne, Hsplit.
  cbn [lookup list_lookup]. rewrite scheme_test.
  destruct (String.eqb scheme "Bearer"); reflexivity.
Qed.

(** ** Role enforcement *)

Ltac run_monad :=
  unfold get_member, getSession, redis_get, redis_setEx, payload_get, payload_set, lift in *;
  unfold bind, try_catch, ret, throw in *;
  cbn beta iota.

(** [handleAuthData] as one case analysis. *)
Lemma handleAuthData_run (data : value) (c : AuthClient) (roles : list string)
    (msgs : Messages) (pm : option PayloadMap) (rq : option Request) (w : World) :
  handleAuthData data c roles msgs pm rq w =
    if nullish data then (Throw TypeError, w)
    else if role_check_passes roles data then
      (Ok (identity_of c data), recorded pm rq (identity_of c data) w)
    else if nullish (member data "user") then (Throw TypeError, w)
    else (Throw (unauthorizedError (invalidPermissions msgs) None), w).
Proof.
  unfold handleAuthData, role_check_passes, userRole, identity_of, recorded.
  destruct roles as [|r roles].
  - run_monad. cbn [length Nat.ltb Nat.leb]. destruct (nullish data); [reflexivity|].
    destruct pm, rq; reflexivity.
  - run_monad. cbn [length Nat.ltb Nat.leb]. destruct (nullish data); [reflexivity|].
    destruct (nullish (member data "user")); cbn [negb andb]; [reflexivity|].
    destruct (includes (r :: roles) _); cbn [negb]; [|reflexivity].
    destruct pm, rq; reflexivity.
Qed.

Lemma handleAuthData_trace (data : value) (c : AuthClient) (roles : list string)
    (msgs : Messages) (pm : option PayloadMap) (rq : option Request) (w : World) :
  trace (snd (handleAuthData data c roles msgs pm rq w)) = trace w.
Proof.
  rewrite handleAuthData_run.
  destruct (nullish data); [reflexivity|].
  destruct (role_check_passes roles data); [destruct pm, rq; reflexivity|].
  destruct (nullish (member data "user")); reflexivity.
Qed.

(** The errors [handleAuthData] can raise. *)
Lemma handleAuthData_errors (data : value) (c : AuthClient) (roles : list string)
    (msgs : Messages) (pm : option PayloadMap) (rq : option Request) (w : World) (e : exn) :
  fst (handleAuthData data c roles msgs pm rq w) = Throw e ->
  e = TypeError \/ e = unauthorizedError (invalidPermissions msgs) None.
Proof.
  rewrite handleAuthData_run.
  destruct (nullish data); [cbn; intros [= <-]; now left|].
  destruct (role_check_passes roles data); [cbn; discriminate|].
  destruct (nullish (member data "user")); cbn; intros [= <-]; [now left | now right].
Qed.

Lemma includes_In (roles : list string) (s : string) :
  includes roles (VStr s) = true <-> In s roles.
Proof.
  cbn. rewrite existsb_exists. split.
  - intros (x & Hin & Heq). apply String.eqb_eq in Heq. now subst.
  - intros Hin. exists s. split; [exact Hin | apply String.eqb_refl].
Qed.

Lemma nullish_false_of_member (v : value) (name : string) :
  member v name <> VUndefined -> nullish v = false.
Proof. destruct v; cbn; congruence. Qed.

Lemma truthy_session_not_nullish (data : value) :
  truthy (optional_member data "session") = true -> nullish data = false.
Proof. unfold optional_member. destruct (nullish data); [discriminate | reflexivity]. Qed.

(** ** The paths of [authorize] *)

Section Paths.

Variable JSON_stringify : value -> string.
Variable JSON_parse : string -> option value.

Variable options : BetterAuthPluginOptions.
Variable token : string.
Variable pm : option PayloadMap.
Variable rq : option Request.
Variable w : World.

Let c := client_for options token w.
Let msgs := effective_messages options.
Let roles := default [] (allowedRoles options).
Let key := cache_key options token.
Let seconds := default 5 (cacheExpiration options).
Let denied : exn := unauthorizedError (invalidToken msgs) None.

(** The library refuses the base URL: [createAuthClient] stands outside
    every [try]. *)
Lemma authorize_rejected :
  client_accepted w (base_url options w) = false ->
  authorize JSON_stringify JSON_parse options token pm rq w
    = (Throw (ForeignError "BetterAuthError"), w).
Proof.
  intros Hrejected. unfold authorize, createAuthClient, base_url in *. run_monad.
  rewrite Hrejected. reflexivity.
Qed.

(** No cache configured. *)
Lemma authorize_uncached :
  client_accepted w (base_url options w) = true ->
  redis options = None ->
  authorize JSON_stringify JSON_parse options token pm rq w =
    let w1 := record_event (SessionLookup c) w in
    match provider w c with
    | Ok data =>
        if truthy (optional_member data "session") && role_check_passes roles data
        then (Ok (identity_of c data), recorded pm rq (identity_of c data) w1)
        else (Throw denied, w1)
    | Throw _ => (Throw denied, w1)
    end.
Proof.
  intros Haccepted Hredis. unfold authorize, createAuthClient, base_url in *.
  rewrite Hredis. run_monad. rewrite Haccepted.
  unfold denied, roles, msgs, c, client_for, base_url, effective_messages. cbv zeta.
  destruct (provider w _) as [data|e]; [|reflexivity].
  destruct (truthy (optional_member data "session")) eqn:Hs; cbn [negb andb]; [|reflexivity].
  rewrite handleAuthData_run, (truthy_session_not_nullish _ Hs).
  destruct (role_check_passes _ data); [reflexivity|].
  destruct (nullish (member data "user")); reflexivity.
Qed.

(** The cache is configured but cannot be reached: [redis.get] is outside
    every [try]. *)
Lemma authorize_offline :
  client_accepted w (base_url options w) = true ->
  redis options <> None -> redis_online w = false ->
  authorize JSON_stringify JSON_parse options token pm rq w =
    (Throw (ForeignError "ClientClosedError"), record_event (CacheGet key) w).
Proof.
  intros Haccepted Hredis Hoff. unfold authorize, createAuthClient, base_url in *.
  destruct (redis options) as [r|]; [|congruence]. run_monad.
  rewrite Haccepted, Hoff. reflexivity.
Qed.

(** Cache miss: nothing live under the key, or an empty text. *)
Lemma authorize_miss :
  client_accepted w (base_url options w) = true ->
  redis options <> None -> redis_online w = true ->
  truthy_text (live_entry w key) = false ->
  authorize JSON_stringify JSON_parse options token pm rq w =
    let w1 := record_event (CacheGet key) w in
    let w2 := record_event (SessionLookup c) w1 in
    match provider w c with
    | Ok data =>
        if truthy (optional_member data "session") then
          let text := JSON_stringify data in
          let w3 := record_event (CacheSetEx key seconds text) w2 in
          if 0 <? seconds then
            let w4 := store_key key (text, clock w + seconds) w3 in
            if role_check_passes roles data
            then (Ok (identity_of c data), recorded pm rq (identity_of c data) w4)
            else (Throw denied, w4)
          else (Throw denied, w3)
        else (Throw denied, w2)
    | Throw _ => (Throw denied, w2)
    end.
Proof.
  intros Haccepted Hredis Hon Hmiss. unfold authorize, createAuthClient, base_url in *.
  destruct (redis options) as [r|]; [|congruence]. run_monad.
  unfold denied, roles, msgs, c, key, seconds, client_for, base_url, effective_messages,
    cache_key in *.
  cbv zeta. rewrite Haccepted, Hon, Hmiss. cbn [negb provider record_event redis_online clock].
  destruct (provider w _) as [data|e]; [|reflexivity].
  destruct (truthy (optional_member data "session")) eqn:Hs; cbn [negb]; [|reflexivity].
  cbn [redis_online clock record_event]. rewrite Hon. cbn [negb].
  destruct (0 <? default 5 (cacheExpiration options)); [|reflexivity].
  rewrite handleAuthData_run, (truthy_session_not_nullish _ Hs).
  destruct (role_check_passes _ data); [reflexivity|].
  destruct (nullish (member data "user")); reflexivity.
Qed.

(** Cache hit: a text that is not empty is live under the key. *)
Lemma authorize_hit (text : string) :
  client_accepted w (base_url options w) = true ->
  redis options <> None -> redis_online w = true ->
  live_entry w key = Some text -> is_empty text = false ->
  authorize JSON_stringify JSON_parse options token pm rq w =
    let w1 := record_event (CacheGet key) w in
    match JSON_parse text with
    | Some data =>
        if nullish data then (Throw denied, w1)
        else if role_check_passes roles data
        then (Ok (identity_of c data), recorded pm rq (identity_of c data) w1)
        else if nullish (member data "user") then (Throw denied, w1)
        else (Throw (unauthorizedError (invalidPermissions msgs) None), w1)
    | None => (Throw denied, w1)
    end.
Proof.
  intros Haccepted Hredis Hon Hlive Hne. unfold authorize, createAuthClient, base_url in *.
  destruct (redis options) as [r|]; [|congruence]. run_monad.
  unfold denied, roles, msgs, c, key, client_for, base_url, effective_messages, cache_key in *.
  cbv zeta. rewrite Haccepted, Hon, Hlive. cbn [truthy_text default id]. rewrite Hne. cbn [negb].
  unfold parse_json. destruct (JSON_parse text) as [data|]; [|reflexivity].
  unfold ret. rewrite handleAuthData_run.
  destruct (nullish data); [reflexivity|].
  destruct (role_check_passes _ data); [reflexivity|].
  destruct (nullish (member data "user")); reflexivity.
Qed.

End Paths.

(** ** The token extractor *)

(** C2, as amended.  The default extractor yields no credential and no
    error when the authorization header is missing or empty.  Otherwise the
    header is cut at every space: the piece before the first space is the
    scheme, and a scheme other than Bearer is refused with a 401 error
    whose message quotes the scheme, before any call to the provider or
    the cache.  For the Bearer scheme the credential is the piece between
    the first and the second space (all that follows the first space when
    there is no second one), be it empty; what follows a second space is
    dropped, and a header without a space yields no credential. *)
Theorem defaultGetToken_cuts_at_every_space
    (JSON_stringify : value -> string) (JSON_parse : string -> option value)
    (params : GetTokenParams) :
  let header := headers_get (request params) "authorization" in
  let refused scheme := Throw (unauthorizedError (unsupported scheme) None) in
  (header = None \/ header = Some EmptyString -> defaultGetToken params = Ok None)
  /\ (forall scheme, header = Some scheme -> scheme <> EmptyString ->
        has_space scheme = false ->
        defaultGetToken params =
          if String.eqb scheme "Bearer" then Ok None else refused scheme)
  /\ (forall scheme credential rest,
        has_space scheme = false -> has_space credential = false ->
        header = Some (scheme +:+ " " +:+ credential)
        \/ header = Some (scheme +:+ " " +:+ credential +:+ " " +:+ rest) ->
        defaultGetToken params =
          if String.eqb scheme "Bearer" then Ok (Some credential) else refused scheme)
  /\ (forall options e w,
        getToken options = None -> defaultGetToken params = Throw e ->
        (exists scheme, e = GraphQLError (unsupported scheme)
                              {| extensions := Some {| http_status := Some 401 |} |})
        /\ onRequestParse JSON_stringify JSON_parse options params w = (Throw e, w)).
Proof.
  cbv zeta. repeat split.
  - intros [H|H]; unfold defaultGetToken; rewrite H; reflexivity.
  - intros scheme Hh Hne Hsp.
    rewrite (defaultGetToken_pieces params scheme scheme [] Hh
               (is_empty_false _ Hne) (split_no_space _ Hsp)).
    reflexivity.
  - intros scheme credential rest Hs Hc [Hh|Hh].
    + rewrite (defaultGetToken_pieces params _ scheme [credential] Hh).
      * reflexivity.
      * apply is_empty_app_space.
      * change (split " " (scheme +:+ String " " credential) = [scheme; credential]).
        rewrite (split_at_space _ _ Hs), (split_no_space _ Hc). reflexivity.
    + rewrite (defaultGetToken_pieces params _ scheme (credential :: split " " rest) Hh).
      * reflexivity.
      * apply is_empty_app_space.
      * change (split " " (scheme +:+ String " " (credential +:+ String " " rest))
                = scheme :: credential :: split " " rest).
        rewrite (split_at_space _ _ Hs), (split_at_space _ _ Hc). reflexivity.
  - unfold defaultGetToken in H0.
    destruct (headers_get (request params) "authorization") as [h|]; [|discriminate].
    destruct (is_empty h); [discriminate|].
    destruct (negb _); [|discriminate].
    injection H0 as <-. eexists. reflexivity.
  - unfold onRequestParse. rewrite H. cbn [default id]. run_monad. rewrite H0. reflexivity.
Qed.

(** The header [Bearer a b] yields the credential [a]. *)
Lemma defaultGetToken_cuts_at_every_space_witness :
  defaultGetToken (sample_params (Some "Bearer a b")) = Ok (Some "a").
Proof.
  apply (proj1 (proj2 (proj2
           (defaultGetToken_cuts_at_every_space sample_stringify sample_parse
              (sample_params (Some "Bearer a b")))))
         "Bearer" "a" "b" eq_refl eq_refl).
  right. reflexivity.
Defined.

(** C2 fails as stated: cut at the first space only, the header
    [Bearer a b] would carry the credential [a b]; the code yields [a]. *)
Lemma defaultGetToken_drops_text_after_second_space :
  spec_extract (Some "Bearer a b") = Ok (Some "a b")
  /\ defaultGetToken (sample_params (Some "Bearer a b")) = Ok (Some "a")
  /\ defaultGetToken (sample_params (Some "Bearer a b")) <> spec_extract (Some "Bearer a b").
Proof.
  split; [reflexivity | split; [reflexivity |]].
  vm_compute. discriminate.
Qed.

(** ** What every call of [authorize] does *)

(** Splits a goal about [authorize] into its paths; the last one is that
    of a client that cannot be built. *)
Ltac by_path S P options token pm rq w :=
  let Hredis := fresh "Hredis" in
  let Hcfg := fresh "Hcfg" in
  let Hon := fresh "Hon" in
  let Hlive := fresh "Hlive" in
  let Hempty := fresh "Hempty" in
  let text := fresh "text" in
  let Haccepted := fresh "Haccepted" in
  destruct (client_accepted w (base_url options w)) eqn:Haccepted;
  [ destruct (redis options) as [?|] eqn:Hredis;
    [ assert (Hcfg : redis options <> None) by (rewrite Hredis; discriminate);
      destruct (redis_online w) eqn:Hon;
      [ destruct (live_entry w (cache_key options token)) as [text|] eqn:Hlive;
        [ destruct (is_empty text) eqn:Hempty;
          [ rewrite (authorize_miss S P options token pm rq w Haccepted Hcfg Hon)
              by (rewrite Hlive; cbn; rewrite Hempty; reflexivity)
          | rewrite (authorize_hit S P options token pm rq w text Haccepted Hcfg Hon
                       Hlive Hempty) ]
        | rewrite (authorize_miss S P options token pm rq w Haccepted Hcfg Hon)
            by (rewrite Hlive; reflexivity) ]
      | rewrite (authorize_offline S P options token pm rq w Haccepted Hcfg Hon) ]
    | rewrite (authorize_uncached S P options token pm rq w Haccepted Hredis) ]
  | rewrite (authorize_rejected S P options token pm rq w Haccepted) ];
  cbv zeta.

Ltac side := first [assumption | reflexivity | discriminate].

Lemma trace_recorded (pm : option PayloadMap) (rq : option Request) (auth : BetterAuth)
    (w : World) :
  trace (recorded pm rq auth w) = trace w.
Proof. destruct pm, rq; reflexivity. Qed.

Lemma payload_recorded (r : Request) (auth : BetterAuth) (w : World) :
  payloadByRequest (recorded (Some payload_map) (Some r) auth w) !! request_id r = Some auth.
Proof. cbn. apply lookup_insert_eq. Qed.

Section Calls.

Variable JSON_stringify : value -> string.
Variable JSON_parse : string -> option value.

Variable options : BetterAuthPluginOptions.
Variable token : string.
Variable pm : option PayloadMap.
Variable rq : option Request.
Variable w : World.

Let c := client_for options token w.
Let key := cache_key options token.
Let seconds := default 5 (cacheExpiration options).
Let msgs := effective_messages options.
Let outcome := authorize JSON_stringify JSON_parse options token pm rq w.

(** The outbound calls of one invocation, in order. *)
Lemma authorize_events :
  client_accepted w (base_url options w) = true ->
  exists evs, trace (snd outcome) = trace w ++ evs /\
    ( (redis options = None /\ evs = [SessionLookup c])
      \/ (redis options <> None /\ redis_online w = false /\ evs = [CacheGet key])
      \/ (redis options <> None /\ redis_online w = true
          /\ truthy_text (live_entry w key) = true /\ evs = [CacheGet key])
      \/ (redis options <> None /\ redis_online w = true
          /\ truthy_text (live_entry w key) = false
          /\ (evs = [CacheGet key; SessionLookup c]
              \/ exists data, provider w c = Ok data
                   /\ evs = [CacheGet key; SessionLookup c;
                             CacheSetEx key seconds (JSON_stringify data)])) ).
Proof.
  intros Hbuilt. unfold outcome, c, key, seconds.
  by_path JSON_stringify JSON_parse options token pm rq w; [| | | | | congruence].
  - (* miss, empty text *)
    assert (Hmiss : truthy_text (Some text) = false) by (cbn; rewrite Hempty; reflexivity).
    destruct (provider w _) as [data|e] eqn:Hp.
    + destruct (truthy (optional_member data "session")).
      * destruct (0 <? _).
        -- destruct (role_check_passes _ data);
             cbn [snd]; rewrite ?trace_recorded; cbn [trace store_key record_event];
             rewrite <- !app_assoc; eexists; (split; [reflexivity|]);
             right; right; right; repeat (split; [side|]);
             right; exists data; split; reflexivity.
        -- cbn [snd trace record_event]. rewrite <- !app_assoc. eexists.
           split; [reflexivity|]. right; right; right.
           repeat (split; [side|]). right. exists data. split; reflexivity.
      * cbn [snd trace record_event]. rewrite <- !app_assoc. eexists.
        split; [reflexivity|]. right; right; right.
        repeat (split; [side|]). left. reflexivity.
    + cbn [snd trace record_event]. rewrite <- !app_assoc. eexists.
      split; [reflexivity|]. right; right; right.
      repeat (split; [side|]). left. reflexivity.
  - (* hit *)
    assert (Hhit : truthy_text (Some text) = true) by (cbn; rewrite Hempty; reflexivity).
    exists [CacheGet (cache_key options token)]. split.
    + destruct (JSON_parse text) as [data|]; [|reflexivity].
      destruct (nullish data); [reflexivity|].
      destruct (role_check_passes _ data); [cbn [snd]; rewrite trace_recorded; reflexivity|].
      destruct (nullish (member data "user")); reflexivity.
    + right; right; left. repeat (split; [side|]). reflexivity.
  - (* miss, no entry *)
    assert (Hmiss : truthy_text None = false) by reflexivity.
    destruct (provider w _) as [data|e] eqn:Hp.
    + destruct (truthy (optional_member data "session")).
      * destruct (0 <? _).
        -- destruct (role_check_passes _ data);
             cbn [snd]; rewrite ?trace_recorded; cbn [trace store_key record_event];
             rewrite <- !app_assoc; eexists; (split; [reflexivity|]);
             right; right; right; repeat (split; [side|]);
             right; exists data; split; reflexivity.
        -- cbn [snd trace record_event]. rewrite <- !app_assoc. eexists.
           split; [reflexivity|]. right; right; right.
           repeat (split; [side|]). right. exists data. split; reflexivity.
      * cbn [snd trace record_event]. rewrite <- !app_assoc. eexists.
        split; [reflexivity|]. right; right; right.
        repeat (split; [side|]). left. reflexivity.
    + cbn [snd trace record_event]. rewrite <- !app_assoc. eexists.
      split; [reflexivity|]. right; right; right.
      repeat (split; [side|]). left. reflexivity.
  - (* offline *)
    exists [CacheGet (cache_key options token)]. split; [reflexivity|].
    right; left. repeat split; side.
  - (* no cache *)
    exists [SessionLookup (client_for options token w)]. split.
    + destruct (provider w _) as [data|e]; [|reflexivity].
      destruct (_ && _); [cbn [snd]; rewrite trace_recorded|]; reflexivity.
    + left. split; reflexivity.
Qed.

(** A client that cannot be built: no call at all. *)
Lemma authorize_events_rejected :
  client_accepted w (base_url options w) = false -> trace (snd outcome) = trace w.
Proof.
  intros Hrejected. unfold outcome.
  rewrite (authorize_rejected JSON_stringify JSON_parse options token pm rq w Hrejected).
  reflexivity.
Qed.

(** The errors of [authorize]: two kinds of 401, and what [redis.get] and
    [createAuthClient] throw, which no [try] encloses. *)
Lemma authorize_errors (e : exn) :
  fst outcome = Throw e ->
  e = unauthorizedError (invalidToken msgs) None
  \/ e = unauthorizedError (invalidPermissions msgs) None
  \/ e = ForeignError "ClientClosedError"
  \/ e = ForeignError "BetterAuthError".
Proof.
  unfold outcome, msgs.
  by_path JSON_stringify JSON_parse options token pm rq w;
    repeat case_match; cbn [fst]; intros [= <-]; auto.
Qed.

(** A success is recorded for the request when the map and the request are
    passed. *)
Lemma authorize_records (r : Request) (auth : BetterAuth) :
  pm = Some payload_map -> rq = Some r ->
  fst outcome = Ok auth ->
  payloadByRequest (snd outcome) !! request_id r = Some auth.
Proof.
  unfold outcome. intros -> ->.
  by_path JSON_stringify JSON_parse options token (Some payload_map) (Some r) w;
    repeat case_match; cbn [fst snd]; intros [= <-]; apply payload_recorded.
Qed.

End Calls.

Lemma hook_authRequired_effective (options : BetterAuthPluginOptions) :
  hook_authRequired options = authRequired (effective_messages options).
Proof. unfold hook_authRequired, effective_messages. destruct (messages options); reflexivity. Qed.

(** The pre-parse hook as one case analysis on what the extractor yields. *)
Lemma onRequestParse_run (JSON_stringify : value -> string)
    (JSON_parse : string -> option value) (options : BetterAuthPluginOptions)
    (params : GetTokenParams) (w : World) :
  onRequestParse JSON_stringify JSON_parse options params w =
    match default defaultGetToken (getToken options) params with
    | Throw e => (Throw e, w)
    | Ok (Some token) =>
        let outcome := authorize JSON_stringify JSON_parse options token
                         (Some payload_map) (Some (request params)) w in
        (match fst outcome with Ok _ => Ok tt | Throw e => Throw e end, snd outcome)
    | Ok None =>
        if default false (requireAuth options)
        then (Throw (unauthorizedError (hook_authRequired options) None), w)
        else (Ok tt, w)
    end.
Proof.
  unfold onRequestParse. run_monad.
  destruct (default defaultGetToken (getToken options) params) as [[t|]|e]; try reflexivity.
  - destruct (authorize _ _ _ _ _ _ _) as [[a|e] w']; reflexivity.
  - destruct (default false (requireAuth options)); reflexivity.
Qed.

(** ** Authorization without a cache *)

(** C6, as amended.  With no cache backend configured, and a base URL
    for which [createAuthClient] builds a client, [authorize] makes exactly
    one session lookup and no other outbound call; when that lookup throws,
    or resolves with data that has no valid session marker, it fails with
    the invalid-token error; and every failure of this path is a GraphQL
    error with HTTP status 401 whose message is the configured
    invalid-token message. *)
Theorem authorize_without_cache
    (JSON_stringify : value -> string) (JSON_parse : string -> option value)
    (options : BetterAuthPluginOptions) (token : string)
    (pm : option PayloadMap) (rq : option Request) (w : World) :
  client_accepted w (base_url options w) = true ->
  redis options = None ->
  let c := client_for options token w in
  let msgs := effective_messages options in
  let outcome := authorize JSON_stringify JSON_parse options token pm rq w in
  trace (snd outcome) = trace w ++ [SessionLookup c]
  /\ (match provider w c with
      | Ok data => truthy (optional_member data "session") = false
      | Throw _ => True
      end ->
      fst outcome = Throw (unauthorizedError (invalidToken msgs) None))
  /\ (forall e, fst outcome = Throw e ->
        e = GraphQLError (invalidToken msgs)
              {| extensions := Some {| http_status := Some 401 |} |}).
Proof.
  intros Hbuilt Hredis. cbv zeta.
  rewrite (authorize_uncached _ _ _ _ _ _ _ Hbuilt Hredis). cbv zeta.
  destruct (provider w _) as [data|e0].
  - destruct (truthy (optional_member data "session")); cbn [andb].
    + destruct (role_check_passes _ data); cbn [fst snd]; rewrite ?trace_recorded;
        (split; [reflexivity|]); (split; [discriminate|]); intros e [= <-]; reflexivity.
    + split; [reflexivity|]. split; [reflexivity|]. intros e [= <-]. reflexivity.
  - split; [reflexivity|]. split; [reflexivity|]. intros e [= <-]. reflexivity.
Qed.

(** A provider that cannot be reached: one lookup, then the 401. *)
Lemma authorize_without_cache_witness :
  fst (authorize sample_stringify sample_parse (sample_options None None None) "T"
         None None (sample_world (Throw (ForeignError "FetchError")) ∅))
  = Throw (unauthorizedError "The provided access token is invalid." None).
Proof.
  exact (proj1 (proj2 (authorize_without_cache sample_stringify sample_parse
                         (sample_options None None None) "T" None None
                         (sample_world (Throw (ForeignError "FetchError")) ∅)
                         eq_refl eq_refl)) I).
Defined.

(** C6 fails as stated: with a base URL that [createAuthClient] refuses,
    and no cache, [authorize] makes no session lookup at all, and what it
    throws is the error of the library, no GraphQL error and no 401. *)
Lemma authorize_without_client_makes_no_lookup :
  authorize sample_stringify sample_parse (misconfigured_options None None None) "T"
    None None (sample_world (Ok (sample_data "admin")) ∅)
  = (Throw (ForeignError "BetterAuthError"), sample_world (Ok (sample_data "admin")) ∅)
  /\ trace (snd (authorize sample_stringify sample_parse
                    (misconfigured_options None None None) "T" None None
                    (sample_world (Ok (sample_data "admin")) ∅))) = []
  /\ instanceof_GraphQLError (ForeignError "BetterAuthError") = false.
Proof. repeat split. Qed.

(** C1, at the failing input.  With [allowedRoles = ["admin"]] and a user
    of role [editor], the permission error of the role check survives only
    on a cache hit: without a cache, and on a cache miss, the bare [catch]
    around the fresh lookup replaces it by the invalid-token error. *)
Theorem editor_rejection_is_reclassified_on_fresh_lookups :
  fst (authorize sample_stringify sample_parse
         (sample_options None (Some ["admin"]) None) "T" None None
         (sample_world (Ok (sample_data "editor")) ∅))
    = Throw (unauthorizedError (invalidToken default_messages) None)
  /\ fst (authorize sample_stringify sample_parse
            (sample_options (Some redis_client) (Some ["admin"]) None) "T" None None
            (sample_world (Ok (sample_data "editor")) ∅))
    = Throw (unauthorizedError (invalidToken default_messages) None)
  /\ fst (authorize sample_stringify sample_parse
            (sample_options (Some redis_client) (Some ["admin"]) None) "T" None None
            (sample_world (Ok (sample_data "editor"))
               {[ "tokens:T" := (data_text "editor", 105) ]}))
    = Throw (unauthorizedError (invalidPermissions default_messages) None)
  /\ unauthorizedError (invalidToken default_messages) None
     <> unauthorizedError (invalidPermissions default_messages) None.
Proof.
  split; [vm_compute; reflexivity|].
  split; [vm_compute; reflexivity|].
  split; [vm_compute; reflexivity|].
  vm_compute. discriminate.
Qed.

(** C4, at the failing input.  A user without a role counts as [user],
    which [allowedRoles = ["admin"]] does not hold: [handleAuthData] raises
    the permission error, yet [authorize] without a cache reports the
    invalid-token error. *)
Theorem default_role_rejection_is_reported_as_invalid_token :
  let data := VObj [("session", sample_session); ("user", VObj [("id", VStr "u1")])] in
  let options := sample_options None (Some ["admin"]) None in
  let w := sample_world (Ok data) ∅ in
  userRole data = VStr "user"
  /\ fst (handleAuthData data (client_for options "T" w) ["admin"] default_messages
            None None w)
     = Throw (unauthorizedError (invalidPermissions default_messages) None)
  /\ fst (authorize sample_stringify sample_parse options "T" None None w)
     = Throw (unauthorizedError (invalidToken default_messages) None).
Proof.
  cbv zeta. split; [reflexivity|]. split; vm_compute; reflexivity.
Qed.

(** ** Authorization through the cache *)

(** At most one call of each kind, and no lookup on a hit. *)
Lemma authorize_call_counts
    (JSON_stringify : value -> string) (JSON_parse : string -> option value)
    (options : BetterAuthPluginOptions) (token : string)
    (pm : option PayloadMap) (rq : option Request) (w : World) :
  exists evs,
    trace (snd (authorize JSON_stringify JSON_parse options token pm rq w)) = trace w ++ evs
    /\ (count is_cache_read evs <= 1)%nat
    /\ (count is_cache_write evs <= 1)%nat
    /\ (count is_lookup evs <= 1)%nat
    /\ (redis options <> None -> redis_online w = true ->
        truthy_text (live_entry w (cache_key options token)) = true ->
        count is_lookup evs = 0%nat).
Proof.
  destruct (client_accepted w (base_url options w)) eqn:Hbuilt; cycle 1.
  { exists []. rewrite app_nil_r.
    split; [exact (authorize_events_rejected _ _ _ _ _ _ _ Hbuilt)|].
    cbn. repeat split; lia. }
  destruct (authorize_events JSON_stringify JSON_parse options token pm rq w Hbuilt)
    as (evs & Htrace & Hcases).
  exists evs. split; [exact Htrace|].
  destruct Hcases as [(Hnone & ->) | [(_ & Hoff & ->) | [(_ & _ & _ & ->) | (_ & _ & Hmiss & Hevs)]]].
  - cbn. repeat split; try lia. intros Hcfg. congruence.
  - cbn. repeat split; lia.
  - cbn. repeat split; lia.
  - destruct Hevs as [-> | (data & _ & ->)]; cbn; repeat split; try lia;
      intros _ _ Hhit; congruence.
Qed.

Lemma recorded_cache (pm : option PayloadMap) (rq : option Request) (auth : BetterAuth)
    (w : World) :
  redis_online (recorded pm rq auth w) = redis_online w
  /\ redis_keys (recorded pm rq auth w) = redis_keys w
  /\ clock (recorded pm rq auth w) = clock w
  /\ env_BETTER_AUTH_URL (recorded pm rq auth w) = env_BETTER_AUTH_URL w.
Proof. destruct pm, rq; repeat split; reflexivity. Qed.

(** The world after a cache miss that ends in a cache write. *)
Lemma authorize_miss_world
    (JSON_stringify : value -> string) (JSON_parse : string -> option value)
    (options : BetterAuthPluginOptions) (token : string)
    (pm : option PayloadMap) (rq : option Request) (w : World) (data : value) :
  client_accepted w (base_url options w) = true ->
  redis options <> None -> redis_online w = true ->
  truthy_text (live_entry w (cache_key options token)) = false ->
  provider w (client_for options token w) = Ok data ->
  truthy (optional_member data "session") = true ->
  0 < default 5 (cacheExpiration options) ->
  let c := client_for options token w in
  let key := cache_key options token in
  let seconds := default 5 (cacheExpiration options) in
  let outcome := authorize JSON_stringify JSON_parse options token pm rq w in
  fst outcome = (if role_check_passes (default [] (allowedRoles options)) data
                 then Ok (identity_of c data)
                 else Throw (unauthorizedError (invalidToken (effective_messages options)) None))
  /\ trace (snd outcome)
     = trace w ++ [CacheGet key; SessionLookup c; CacheSetEx key seconds (JSON_stringify data)]
  /\ redis_online (snd outcome) = true
  /\ redis_keys (snd outcome)
     = <[key := (JSON_stringify data, clock w + seconds)]> (redis_keys w)
  /\ clock (snd outcome) = clock w
  /\ env_BETTER_AUTH_URL (snd outcome) = env_BETTER_AUTH_URL w
  /\ client_accepted (snd outcome) = client_accepted w.
Proof.
  intros Hbuilt Hcfg Hon Hmiss Hprov Hsession Hpositive. cbv zeta.
  rewrite (authorize_miss JSON_stringify JSON_parse options token pm rq w Hbuilt Hcfg Hon Hmiss).
  cbv zeta. rewrite Hprov, Hsession.
  destruct (Z.ltb_spec 0 (default 5 (cacheExpiration options))) as [_|]; [|lia].
  destruct (role_check_passes _ data); cbn [fst snd].
  - destruct (recorded_cache pm rq (identity_of (client_for options token w) data)
                (store_key (cache_key options token)
                   (JSON_stringify data, clock w + default 5 (cacheExpiration options))
                   (record_event
                      (CacheSetEx (cache_key options token)
                         (default 5 (cacheExpiration options)) (JSON_stringify data))
                      (record_event (SessionLookup (client_for options token w))
                         (record_event (CacheGet (cache_key options token)) w)))))
      as (-> & -> & -> & ->).
    rewrite trace_recorded. cbn [trace redis_online redis_keys clock env_BETTER_AUTH_URL
                                 store_key record_event].
    rewrite <- !app_assoc. repeat split; try side. destruct pm, rq; reflexivity.
  - cbn [trace redis_online redis_keys clock env_BETTER_AUTH_URL store_key record_event].
    rewrite <- !app_assoc. repeat split; side.
Qed.

(** The world in which a later call runs after a cache fill: time has
    passed and the provider may answer otherwise. *)
Lemma later_world
    (options : BetterAuthPluginOptions) (token : string) (w w1 : World)
    (p : AuthClient -> Result value) (text : string) (seconds dt : Z) :
  client_accepted w (base_url options w) = true ->
  redis_online w1 = true ->
  redis_keys w1 = <[cache_key options token := (text, clock w + seconds)]> (redis_keys w) ->
  clock w1 = clock w ->
  env_BETTER_AUTH_URL w1 = env_BETTER_AUTH_URL w ->
  client_accepted w1 = client_accepted w ->
  let w2 := answering p (elapse dt w1) in
  client_accepted w2 (base_url options w2) = true
  /\ redis_online w2 = true
  /\ client_for options token w2 = client_for options token w
  /\ provider w2 = p
  /\ trace w2 = trace w1
  /\ live_entry w2 (cache_key options token)
     = if clock w + dt <? clock w + seconds then Some text else None.
Proof.
  intros Hbuilt Hon Hkeys Hclock Henv Haccepted. cbv zeta.
  unfold client_for, base_url, live_entry in *.
  cbn [client_accepted env_BETTER_AUTH_URL redis_online redis_keys clock provider trace
       answering elapse].
  rewrite Haccepted, Henv, Hkeys, Hclock, lookup_insert_eq. repeat split; assumption.
Qed.

(** C3, as amended.  With a cache configured, a time to live of 5, the
    default prefix and a base URL for which [createAuthClient] builds a
    client: a first call with token [T] that finds nothing usable in the
    cache, and for which the provider reports a valid session, makes one
    cache read, one session lookup and one cache write under [tokens:T]
    with a time to live of 5, in this order; a second call less than 5
    seconds later makes one cache read and nothing else, whatever the
    provider would answer by then.  When the role check lets the data
    through, the first call yields the session and user that the provider
    returned, and the second those that [JSON.parse] makes of the cached
    text: the same when JSON gives the data back unchanged.  Every call of
    [authorize] makes at most one cache read, one cache write and one
    session lookup, and no session lookup on a cache hit. *)
Theorem authorize_cache_round_trip
    (JSON_stringify : value -> string) (JSON_parse : string -> option value)
    (options : BetterAuthPluginOptions) (T : string)
    (pm : option PayloadMap) (rq : option Request) (w : World)
    (data parsed : value) (later : AuthClient -> Result value) (dt : Z) :
  client_accepted w (base_url options w) = true ->
  redis options <> None ->
  default 5 (cacheExpiration options) = 5 ->
  cachePrefix options = None ->
  redis_online w = true ->
  truthy_text (live_entry w ("tokens:" +:+ T)) = false ->
  provider w (client_for options T w) = Ok data ->
  truthy (optional_member data "session") = true ->
  JSON_parse (JSON_stringify data) = Some parsed ->
  JSON_stringify data <> EmptyString ->
  0 <= dt < 5 ->
  let c := client_for options T w in
  let roles := default [] (allowedRoles options) in
  let first := authorize JSON_stringify JSON_parse options T pm rq w in
  let second := authorize JSON_stringify JSON_parse options T pm rq
                  (answering later (elapse dt (snd first))) in
  trace (snd first) =
    trace w ++ [CacheGet ("tokens:" +:+ T); SessionLookup c;
                CacheSetEx ("tokens:" +:+ T) 5 (JSON_stringify data)]
  /\ trace (snd second) = trace (snd first) ++ [CacheGet ("tokens:" +:+ T)]
  /\ (role_check_passes roles data = true ->
      nullish parsed = false -> role_check_passes roles parsed = true ->
      exists a1 a2, fst first = Ok a1 /\ fst second = Ok a2
        /\ session a1 = member data "session" /\ user a1 = member data "user"
        /\ session a2 = member parsed "session" /\ user a2 = member parsed "user"
        /\ (parsed = data -> session a2 = session a1 /\ user a2 = user a1))
  /\ (forall options' token' pm' rq' w',
        exists evs,
          trace (snd (authorize JSON_stringify JSON_parse options' token' pm' rq' w'))
            = trace w' ++ evs
          /\ (count is_cache_read evs <= 1)%nat
          /\ (count is_cache_write evs <= 1)%nat
          /\ (count is_lookup evs <= 1)%nat
          /\ (redis options' <> None -> redis_online w' = true ->
              truthy_text (live_entry w' (cache_key options' token')) = true ->
              count is_lookup evs = 0%nat)).
Proof.
  intros Hbuilt Hcfg Httl Hprefix Hon Hmiss Hprov Hsession Hround Htext Hdt.
  assert (Hkey : cache_key options T = "tokens:" +:+ T)
    by (unfold cache_key; rewrite Hprefix; reflexivity).
  rewrite <- Hkey in Hmiss.
  destruct (authorize_miss_world JSON_stringify JSON_parse options T pm rq w data
              Hbuilt Hcfg Hon Hmiss Hprov Hsession ltac:(lia))
    as (Hfirst & Htrace1 & Hon1 & Hkeys1 & Hclock1 & Henv1 & Haccepted1).
  cbv zeta.
  set (first := authorize JSON_stringify JSON_parse options T pm rq w) in *.
  destruct (later_world options T w (snd first) later (JSON_stringify data)
              (default 5 (cacheExpiration options)) dt
              Hbuilt Hon1 Hkeys1 Hclock1 Henv1 Haccepted1)
    as (Hbuilt2 & Hon2 & Hc2 & _ & Htrace2 & Hlive2).
  rewrite Httl in Hlive2, Htrace1.
  destruct (Z.ltb_spec (clock w + dt) (clock w + 5)) as [_|]; [|lia].
  rewrite (authorize_hit JSON_stringify JSON_parse options T pm rq _ (JSON_stringify data)
             Hbuilt2 Hcfg Hon2 Hlive2 (is_empty_false _ Htext)).
  cbv zeta. rewrite Hround, Hc2, Hkey in *.
  split; [exact Htrace1|]. split; [|split].
  - destruct (nullish parsed); [cbn [snd trace record_event]; rewrite Htrace2; reflexivity|].
    destruct (role_check_passes _ parsed);
      [cbn [snd]; rewrite trace_recorded; cbn [trace record_event]; rewrite Htrace2;
       reflexivity|].
    destruct (nullish (member parsed "user")); cbn [snd trace record_event];
      rewrite Htrace2; reflexivity.
  - intros Hrole Hnull Hrole2. rewrite Hrole in Hfirst. rewrite Hnull, Hrole2.
    exists (identity_of (client_for options T w) data),
           (identity_of (client_for options T w) parsed).
    repeat split; first [side | congruence].
  - intros. apply authorize_call_counts.
Qed.

(** An administrator asks twice, three seconds apart. *)
Lemma authorize_cache_round_trip_witness :
  exists a1 a2,
    fst (authorize sample_stringify sample_parse
           (sample_options (Some redis_client) (Some ["admin"]) None) "T" None None
           (sample_world (Ok (sample_data "admin")) ∅)) = Ok a1
    /\ fst (authorize sample_stringify sample_parse
              (sample_options (Some redis_client) (Some ["admin"]) None) "T" None None
              (answering (fun _ => Throw (ForeignError "FetchError"))
                 (elapse 3
                    (snd (authorize sample_stringify sample_parse
                            (sample_options (Some redis_client) (Some ["admin"]) None) "T"
                            None None (sample_world (Ok (sample_data "admin")) ∅)))))) = Ok a2
    /\ session a1 = member (sample_data "admin") "session"
    /\ user a1 = member (sample_data "admin") "user"
    /\ session a2 = member (sample_data "admin") "session"
    /\ user a2 = member (sample_data "admin") "user"
    /\ (sample_data "admin" = sample_data "admin" -> session a2 = session a1 /\ user a2 = user a1).
Proof.
  refine (proj1 (proj2 (proj2
            (authorize_cache_round_trip sample_stringify sample_parse
               (sample_options (Some redis_client) (Some ["admin"]) None) "T" None None
               (sample_world (Ok (sample_data "admin")) ∅)
               (sample_data "admin") (sample_data "admin")
               (fun _ => Throw (ForeignError "FetchError")) 3
               _ _ _ _ _ _ _ _ _ _ _))) _ _ _);
    try reflexivity; try discriminate; try lia.
Defined.

(** C3 fails as stated: the provider's session carries a [Date], the cache
    holds JSON text, and what the second call yields has the date as a
    string: its session is not equal in content to that of the first. *)
Lemma cached_session_loses_its_dates :
  fst (authorize sample_stringify sample_parse
         (sample_options (Some redis_client) None None) "T" None None
         (sample_world (Ok dated_data) ∅))
    = Ok {| client := bound_client (Some "https://auth.example") None "T";
            session := dated_session;
            user := sample_user "admin" |}
  /\ fst (authorize sample_stringify sample_parse
            (sample_options (Some redis_client) None None) "T" None None
            (elapse 3
               (snd (authorize sample_stringify sample_parse
                       (sample_options (Some redis_client) None None) "T" None None
                       (sample_world (Ok dated_data) ∅)))))
    = Ok {| client := bound_client (Some "https://auth.example") None "T";
            session := VObj [("id", VStr "s1");
                             ("expiresAt", VStr "2030-01-01T00:00:00.000Z")];
            user := sample_user "admin" |}
  /\ VObj [("id", VStr "s1"); ("expiresAt", VStr "2030-01-01T00:00:00.000Z")]
     <> dated_session.
Proof.
  split; [vm_compute; reflexivity|]. split; [vm_compute; reflexivity|]. discriminate.
Qed.

(** C8, as amended.  Where [createAuthClient] builds a client: on a cache
    hit no session marker is asked for: when the cached text parses as
    JSON to a value other than null, and the
    allowed-role set is empty or the user of that value passes the role
    check, [authorize] succeeds with the identity built from that value,
    whatever its session field is, also when it has none.  On a fresh
    lookup, with or without a cache, data without a valid session marker
    is refused with the invalid-token error. *)
Theorem cache_hit_skips_session_check
    (JSON_stringify : value -> string) (JSON_parse : string -> option value)
    (options : BetterAuthPluginOptions) (token : string)
    (pm : option PayloadMap) (rq : option Request) (w : World)
    (text : string) (data : value) :
  client_accepted w (base_url options w) = true ->
  redis options <> None -> redis_online w = true ->
  live_entry w (cache_key options token) = Some text ->
  text <> EmptyString ->
  JSON_parse text = Some data ->
  nullish data = false ->
  role_check_passes (default [] (allowedRoles options)) data = true ->
  let c := client_for options token w in
  authorize JSON_stringify JSON_parse options token pm rq w
    = (Ok (identity_of c data),
       recorded pm rq (identity_of c data)
         (record_event (CacheGet (cache_key options token)) w))
  /\ (forall options' token' pm' rq' w' fresh,
        client_accepted w' (base_url options' w') = true ->
        redis options' = None
        \/ (redis_online w' = true
            /\ truthy_text (live_entry w' (cache_key options' token')) = false) ->
        provider w' (client_for options' token' w') = Ok fresh ->
        truthy (optional_member fresh "session") = false ->
        fst (authorize JSON_stringify JSON_parse options' token' pm' rq' w')
          = Throw (unauthorizedError (invalidToken (effective_messages options')) None)).
Proof.
  intros Hbuilt Hcfg Hon Hlive Htext Hparse Hnull Hrole. cbv zeta. split.
  - rewrite (authorize_hit JSON_stringify JSON_parse options token pm rq w text
               Hbuilt Hcfg Hon Hlive (is_empty_false _ Htext)).
    cbv zeta. rewrite Hparse, Hnull, Hrole. reflexivity.
  - intros options' token' pm' rq' w' fresh Hbuilt' Hpath Hprov Hsession.
    destruct (redis options') as [handle|] eqn:Hredis.
    + destruct Hpath as [Hnone | [Hon' Hmiss]]; [discriminate|].
      rewrite (authorize_miss JSON_stringify JSON_parse options' token' pm' rq' w')
        by (congruence || assumption).
      cbv zeta. rewrite Hprov, Hsession. reflexivity.
    + rewrite (authorize_uncached JSON_stringify JSON_parse options' token' pm' rq' w'
                 Hbuilt' Hredis).
      cbv zeta. rewrite Hprov, Hsession. reflexivity.
Qed.

(** A cached value without a session field is accepted. *)
Lemma cache_hit_skips_session_check_witness :
  fst (authorize sample_stringify sample_parse
         (sample_options (Some redis_client) (Some ["admin"]) None) "T" None None
         (sample_world (Throw (ForeignError "FetchError"))
            {[ "tokens:T" := (sessionless_text, 105) ]}))
  = Ok {| client := bound_client (Some "https://auth.example") None "T";
          session := VUndefined;
          user := sample_user "admin" |}.
Proof.
  refine (f_equal fst (proj1
            (cache_hit_skips_session_check sample_stringify sample_parse
               (sample_options (Some redis_client) (Some ["admin"]) None) "T" None None
               (sample_world (Throw (ForeignError "FetchError"))
                  {[ "tokens:T" := (sessionless_text, 105) ]})
               sessionless_text sessionless_data _ _ _ _ _ _ _ _)));
    try reflexivity; try discriminate.
Defined.

(** C8 fails as stated: the cached text [null] parses as JSON and the
    allowed-role set is empty, yet [authorize] fails, because reading
    [data.session] of null throws. *)
Lemma cached_null_is_rejected :
  sample_parse "null" = Some VNull
  /\ role_check_passes (default [] (allowedRoles (sample_options (Some redis_client) None None)))
       VNull = true
  /\ fst (authorize sample_stringify sample_parse
            (sample_options (Some redis_client) None None) "T" None None
            (sample_world (Ok (sample_data "admin")) {[ "tokens:T" := ("null", 105) ]}))
     = Throw (unauthorizedError (invalidToken default_messages) None).
Proof. split; [reflexivity|]. split; [reflexivity|]. vm_compute. reflexivity. Qed.

(** ** The default role *)

Lemma empty_role_check (data : value) (roles : list string) :
  member (member data "user") "role" = VStr EmptyString ->
  roles <> [] ->
  nullish data = false
  /\ userRole data = VStr "user"
  /\ (role_check_passes roles data = true <-> In "user" roles).
Proof.
  intros Hrole Hroles.
  assert (Huser : nullish (member data "user") = false)
    by (apply (nullish_false_of_member _ "role"); rewrite Hrole; discriminate).
  assert (Hdata : nullish data = false).
  { apply (nullish_false_of_member _ "user"). intros Hu. rewrite Hu in Huser. discriminate. }
  assert (Hdefault : userRole data = VStr "user") by (unfold userRole; rewrite Hrole; reflexivity).
  split; [exact Hdata|]. split; [exact Hdefault|].
  unfold role_check_passes. destruct roles as [|r roles]; [congruence|].
  rewrite Huser, Hdefault. cbn [negb andb]. apply includes_In.
Qed.

(** C10.  A role that is the empty string is falsy, so role enforcement
    reads it as [user]: with a non-empty allowed-role set the role check
    of [handleAuthData] succeeds if and only if [user] is in the set, and
    throws the permission error otherwise.  For [authorize], on each of
    its three paths, the request succeeds if and only if [user] is in the
    set and nothing else stops it: the client can be built, a fresh lookup
    carries a valid session marker, and on a cache miss the cache write is
    accepted. *)
Theorem empty_role_is_read_as_user
    (JSON_stringify : value -> string) (JSON_parse : string -> option value)
    (data : value) (roles : list string) :
  member (member data "user") "role" = VStr EmptyString ->
  roles <> [] ->
  userRole data = VStr "user"
  /\ (forall c msgs pm rq w,
        ((exists auth w', handleAuthData data c roles msgs pm rq w = (Ok auth, w'))
         <-> In "user" roles)
        /\ (~ In "user" roles ->
            handleAuthData data c roles msgs pm rq w
              = (Throw (unauthorizedError (invalidPermissions msgs) None), w)))
  /\ (forall options token pm rq w,
        default [] (allowedRoles options) = roles ->
        redis options = None ->
        provider w (client_for options token w) = Ok data ->
        ((exists auth, fst (authorize JSON_stringify JSON_parse options token pm rq w) = Ok auth)
         <-> (In "user" roles
              /\ client_accepted w (base_url options w) = true
              /\ truthy (optional_member data "session") = true)))
  /\ (forall options token pm rq w,
        default [] (allowedRoles options) = roles ->
        redis options <> None -> redis_online w = true ->
        truthy_text (live_entry w (cache_key options token)) = false ->
        provider w (client_for options token w) = Ok data ->
        ((exists auth, fst (authorize JSON_stringify JSON_parse options token pm rq w) = Ok auth)
         <-> (In "user" roles
              /\ client_accepted w (base_url options w) = true
              /\ truthy (optional_member data "session") = true
              /\ 0 < default 5 (cacheExpiration options))))
  /\ (forall options token pm rq w text,
        default [] (allowedRoles options) = roles ->
        redis options <> None -> redis_online w = true ->
        live_entry w (cache_key options token) = Some text ->
        text <> EmptyString ->
        JSON_parse text = Some data ->
        ((exists auth, fst (authorize JSON_stringify JSON_parse options token pm rq w) = Ok auth)
         <-> (In "user" roles /\ client_accepted w (base_url options w) = true))).
Proof.
  intros Hrole Hroles.
  destruct (empty_role_check data roles Hrole Hroles) as (Hdata & Hdefault & Hcheck).
  assert (Huser : nullish (member data "user") = false)
    by (apply (nullish_false_of_member _ "role"); rewrite Hrole; discriminate).
  assert (Hno : forall (r : Result BetterAuth) e, r = Throw e -> ~ exists auth, r = Ok auth)
    by (intros r e -> (auth & [=])).
  split; [exact Hdefault|]. split; [|split; [|split]].
  - intros c msgs pm rq w. rewrite handleAuthData_run, Hdata, Huser.
    destruct (role_check_passes roles data) eqn:Hpass.
    + split.
      * split; [intros _; apply Hcheck; reflexivity | intros _; eauto].
      * intros Hnot. exfalso. apply Hnot, Hcheck. reflexivity.
    + split.
      * split; [intros (auth & w' & [=]) | intros Hin; apply Hcheck in Hin; discriminate].
      * reflexivity.
  - intros options token pm rq w Hallowed Hredis Hprov.
    destruct (client_accepted w (base_url options w)) eqn:Hbuilt.
    + rewrite (authorize_uncached JSON_stringify JSON_parse options token pm rq w Hbuilt Hredis).
      cbv zeta. rewrite Hprov, Hallowed.
      destruct (truthy (optional_member data "session")); cbn [andb fst];
        [destruct (role_check_passes roles data) eqn:Hpass; cbn [fst]|].
      * split; [intros _; repeat split; apply Hcheck; reflexivity | intros _; eauto].
      * split; [intros (auth & [=]) | intros (Hin & _); apply Hcheck in Hin; discriminate].
      * split; [intros (auth & [=]) | intros (_ & _ & [=])].
    + rewrite (authorize_rejected JSON_stringify JSON_parse options token pm rq w Hbuilt).
      cbn [fst]. split; [intros (auth & [=]) | intros (_ & [=] & _)].
  - intros options token pm rq w Hallowed Hcfg Hon Hmiss Hprov.
    destruct (client_accepted w (base_url options w)) eqn:Hbuilt.
    + rewrite (authorize_miss JSON_stringify JSON_parse options token pm rq w
                 Hbuilt Hcfg Hon Hmiss).
      cbv zeta. rewrite Hprov, Hallowed.
      destruct (truthy (optional_member data "session")); cbn [fst];
        [destruct (Z.ltb_spec 0 (default 5 (cacheExpiration options)));
         [destruct (role_check_passes roles data) eqn:Hpass; cbn [fst]|]|].
      * split; [intros _; repeat split; try assumption; apply Hcheck; reflexivity
               | intros _; eauto].
      * split; [intros (auth & [=]) | intros (Hin & _); apply Hcheck in Hin; discriminate].
      * cbn [fst]. split; [intros (auth & [=]) | intros (_ & _ & _ & Hpos); lia].
      * split; [intros (auth & [=]) | intros (_ & _ & [=] & _)].
    + rewrite (authorize_rejected JSON_stringify JSON_parse options token pm rq w Hbuilt).
      cbn [fst]. split; [intros (auth & [=]) | intros (_ & [=] & _)].
  - intros options token pm rq w text Hallowed Hcfg Hon Hlive Htext Hparse.
    destruct (client_accepted w (base_url options w)) eqn:Hbuilt.
    + rewrite (authorize_hit JSON_stringify JSON_parse options token pm rq w text
                 Hbuilt Hcfg Hon Hlive (is_empty_false _ Htext)).
      cbv zeta. rewrite Hparse, Hdata, Hallowed, Huser.
      destruct (role_check_passes roles data) eqn:Hpass; cbn [fst].
      * split; [intros _; split; [apply Hcheck|]; reflexivity | intros _; eauto].
      * split; [intros (auth & [=]) | intros (Hin & _); apply Hcheck in Hin; discriminate].
    + rewrite (authorize_rejected JSON_stringify JSON_parse options token pm rq w Hbuilt).
      cbn [fst]. split; [intros (auth & [=]) | intros (_ & [=])].
Qed.

(** A user with an empty role passes when [user] is allowed. *)
Lemma empty_role_is_read_as_user_witness :
  exists auth,
    fst (authorize sample_stringify sample_parse
           (sample_options None (Some ["admin"; "user"]) None) "T" None None
           (sample_world (Ok (sample_data EmptyString)) ∅)) = Ok auth.
Proof.
  refine (proj2 (proj1 (proj2 (proj2
            (empty_role_is_read_as_user sample_stringify sample_parse
               (sample_data EmptyString) ["admin"; "user"] eq_refl _)))
            (sample_options None (Some ["admin"; "user"]) None) "T" None None
            (sample_world (Ok (sample_data EmptyString)) ∅) eq_refl eq_refl eq_refl) _).
  - discriminate.
  - split; [right; left; reflexivity | split; reflexivity].
Defined.

(** ** The hooks *)

(** C5, as amended.  When the extractor in force reports no credential,
    as the default one does for every request without an authorization
    header: if authentication is required the pre-parse hook fails with a
    GraphQL error whose message is the configured authentication-required
    message, or the default text when no messages are configured, and whose
    HTTP status is 401, and it changes nothing; if authentication is not
    required the pre-parse hook raises nothing and changes nothing, and the
    context-build hook, for a request that has no recorded result, raises
    nothing and leaves the context as it is. *)
Theorem request_without_header
    (JSON_stringify : value -> string) (JSON_parse : string -> option value)
    (options : BetterAuthPluginOptions) (params : GetTokenParams) (w : World)
    (context : gmap string ContextValue) :
  default defaultGetToken (getToken options) params = Ok None ->
  (headers_get (request params) "authorization" = None ->
   defaultGetToken params = Ok None)
  /\ (requireAuth options = Some true ->
      onRequestParse JSON_stringify JSON_parse options params w
        = (Throw (GraphQLError
                    match messages options with
                    | Some m => authRequired m
                    | None => "Authentication is required to access this resource."
                    end
                    {| extensions := Some {| http_status := Some 401 |} |}), w))
  /\ (default false (requireAuth options) = false ->
      onRequestParse JSON_stringify JSON_parse options params w = (Ok tt, w)
      /\ (context !! "request" = Some (CtxRequest (request params)) ->
          payloadByRequest w !! request_id (request params) = None ->
          onContextBuilding options context w = (Ok context, w))).
Proof.
  intros Htoken. rewrite onRequestParse_run, Htoken. split; [|split].
  - intros Hheader. unfold defaultGetToken. rewrite Hheader. reflexivity.
  - intros ->. reflexivity.
  - intros ->. split; [reflexivity|].
    intros Hrequest Hfresh. unfold onContextBuilding. rewrite Hrequest.
    run_monad. rewrite Hfresh. reflexivity.
Qed.

(** No header and authentication required: the default message. *)
Lemma request_without_header_witness :
  onRequestParse sample_stringify sample_parse (sample_options None None (Some true))
    (sample_params None) (sample_world (Ok VNull) ∅)
  = (Throw (GraphQLError "Authentication is required to access this resource."
              {| extensions := Some {| http_status := Some 401 |} |}),
     sample_world (Ok VNull) ∅).
Proof.
  exact (proj1 (proj2 (request_without_header sample_stringify sample_parse
                         (sample_options None None (Some true)) (sample_params None)
                         (sample_world (Ok VNull) ∅) ∅ eq_refl)) eq_refl).
Defined.

(** A request without an authorization header is not always a request
    without credential: with an extractor of the application's own, which
    here finds the token [T] elsewhere, and authentication required, the
    pre-parse hook raises nothing and records an identity, which the
    context-build hook puts into the context. *)
Lemma custom_extractor_authorizes_without_header :
  let w := sample_world (Ok (sample_data "admin")) ∅ in
  let hook := onRequestParse sample_stringify sample_parse cookie_options
                (sample_params None) w in
  headers_get (request (sample_params None)) "authorization" = None
  /\ requireAuth cookie_options = Some true
  /\ fst hook = Ok tt
  /\ exists auth,
       payloadByRequest (snd hook) !! request_id (request (sample_params None)) = Some auth
       /\ onContextBuilding cookie_options
            {[ "request" := CtxRequest (request (sample_params None)) ]} (snd hook)
          = (Ok (<["auth" := CtxAuth auth]>
                   {[ "request" := CtxRequest (request (sample_params None)) ]}), snd hook).
Proof.
  cbv zeta. split; [reflexivity|]. split; [reflexivity|]. split; [reflexivity|].
  eexists. split; reflexivity.
Qed.

(** C7.  The context-build hook throws a plain [Error], which is no GraphQL
    error and carries no HTTP status, whenever [context.request] is
    missing, undefined or null.  When the request is there and a result is
    recorded for it, as the pre-parse hook does with the identity that
    [authorize] returned, the hook puts exactly that result into the
    context under [extendContextField], which defaults to [auth]. *)
Theorem context_build_hook
    (options : BetterAuthPluginOptions) (context : gmap string ContextValue) (w : World) :
  (context !! "request" = None
   \/ context !! "request" = Some (CtxValue VUndefined)
   \/ context !! "request" = Some (CtxValue VNull) ->
   onContextBuilding options context w = (Throw (Error request_missing), w)
   /\ instanceof_GraphQLError (Error request_missing) = false
   /\ forall message opts, Error request_missing <> unauthorizedError message opts)
  /\ (forall r payload,
        context !! "request" = Some (CtxRequest r) ->
        payloadByRequest w !! request_id r = Some payload ->
        onContextBuilding options context w
          = (Ok (<[default "auth" (extendContextField options) := CtxAuth payload]> context), w))
  /\ (forall JSON_stringify JSON_parse params w0 token,
        context !! "request" = Some (CtxRequest (request params)) ->
        default defaultGetToken (getToken options) params = Ok (Some token) ->
        onRequestParse JSON_stringify JSON_parse options params w0 = (Ok tt, w) ->
        exists auth,
          fst (authorize JSON_stringify JSON_parse options token
                 (Some payload_map) (Some (request params)) w0) = Ok auth
          /\ onContextBuilding options context w
             = (Ok (<[default "auth" (extendContextField options) := CtxAuth auth]> context), w)).
Proof.
  assert (Hattach : forall r payload,
            context !! "request" = Some (CtxRequest r) ->
            payloadByRequest w !! request_id r = Some payload ->
            onContextBuilding options context w
              = (Ok (<[default "auth" (extendContextField options) := CtxAuth payload]> context), w)).
  { intros r payload Hrequest Hpayload. unfold onContextBuilding. rewrite Hrequest.
    run_monad. rewrite Hpayload. reflexivity. }
  split; [|split; [exact Hattach|]].
  - intros Habsent. split; [|split; [reflexivity | discriminate]].
    unfold onContextBuilding.
    destruct Habsent as [-> | [-> | ->]]; reflexivity.
  - intros JSON_stringify JSON_parse params w0 token Hrequest Htoken Hparse.
    rewrite onRequestParse_run, Htoken in Hparse. cbv zeta in Hparse.
    destruct (fst (authorize JSON_stringify JSON_parse options token
                     (Some payload_map) (Some (request params)) w0)) as [auth|e] eqn:Hauth;
      [|discriminate].
    injection Hparse as Hw. exists auth. split; [reflexivity|].
    apply (Hattach (request params) auth Hrequest). rewrite <- Hw.
    apply (authorize_records JSON_stringify JSON_parse options token
             (Some payload_map) (Some (request params)) w0 (request params) auth
             eq_refl eq_refl Hauth).
Qed.

(** A context without a request. *)
Lemma context_build_hook_witness :
  onContextBuilding (sample_options None None None) ∅ (sample_world (Ok VNull) ∅)
  = (Throw (Error request_missing), sample_world (Ok VNull) ∅).
Proof.
  exact (proj1 (proj1 (context_build_hook (sample_options None None None) ∅
                         (sample_world (Ok VNull) ∅)) (or_introl eq_refl))).
Defined.

(** C9.  An empty credential is a credential: when the extractor yields the
    empty string, the pre-parse hook runs [authorize] on it and ends as
    [authorize] ends, whatever [requireAuth] is; where [createAuthClient]
    builds a client it makes at least one outbound call, and where it does
    not the hook fails with the library's own error; its error is never a
    GraphQL error with the authentication-required message when that
    message differs from the two messages [authorize] uses.  The default
    extractor yields the empty string for a header in which a second space
    follows [Bearer] and its space, and for the header [Bearer ] where the
    headers object hands it over with the space at its end; it yields no
    credential for the header [Bearer], which the hook treats as a request
    without credential. *)
Theorem empty_credential_is_present
    (JSON_stringify : value -> string) (JSON_parse : string -> option value)
    (options : BetterAuthPluginOptions) (params : GetTokenParams) (w : World) :
  let msgs := effective_messages options in
  let hook := onRequestParse JSON_stringify JSON_parse options params w in
  (default defaultGetToken (getToken options) params = Ok (Some EmptyString) ->
   let outcome := authorize JSON_stringify JSON_parse options EmptyString
                    (Some payload_map) (Some (request params)) w in
   hook = (match fst outcome with Ok _ => Ok tt | Throw e => Throw e end, snd outcome)
   /\ (client_accepted w (base_url options w) = true -> trace (snd hook) <> trace w)
   /\ (client_accepted w (base_url options w) = false ->
       hook = (Throw (ForeignError "BetterAuthError"), w))
   /\ (authRequired msgs <> invalidToken msgs ->
       authRequired msgs <> invalidPermissions msgs ->
       forall o, fst hook <> Throw (GraphQLError (authRequired msgs) o)))
  /\ (forall rest,
        headers_get (request params) "authorization" = Some ("Bearer " +:+ String " " rest) ->
        defaultGetToken params = Ok (Some EmptyString))
  /\ (headers_get (request params) "authorization" = Some "Bearer " ->
      defaultGetToken params = Ok (Some EmptyString))
  /\ (headers_get (request params) "authorization" = Some "Bearer" ->
      defaultGetToken params = Ok None
      /\ (getToken options = None ->
          hook = if default false (requireAuth options)
                 then (Throw (GraphQLError (authRequired msgs)
                                {| extensions := Some {| http_status := Some 401 |} |}), w)
                 else (Ok tt, w))).
Proof.
  cbv zeta. split; [|split; [|split]].
  - intros Htoken. rewrite onRequestParse_run, Htoken. cbv zeta.
    split; [reflexivity|]. cbn [fst snd]. split; [|split].
    + intros Hbuilt.
      destruct (authorize_events JSON_stringify JSON_parse options EmptyString
                  (Some payload_map) (Some (request params)) w Hbuilt) as (evs & -> & Hevs).
      intros Heq. rewrite <- (app_nil_r (trace w)) in Heq at 2.
      apply app_inv_head in Heq. subst evs.
      destruct Hevs as [(_ & [=]) | [(_ & _ & [=]) | [(_ & _ & _ & [=]) | (_ & _ & _ & Hevs)]]].
      destruct Hevs as [[=] | (data & _ & [=])].
    + intros Hrejected.
      rewrite (authorize_rejected JSON_stringify JSON_parse options EmptyString
                 (Some payload_map) (Some (request params)) w Hrejected).
      reflexivity.
    + intros Htok Hperm o Hthrow.
      destruct (fst (authorize _ _ _ _ _ _ _)) as [auth|e] eqn:Hauth; [discriminate|].
      injection Hthrow as ->.
      destruct (authorize_errors JSON_stringify JSON_parse options EmptyString
                  (Some payload_map) (Some (request params)) w _ Hauth)
        as [He | [He | [He | He]]];
        unfold unauthorizedError, createGraphQLError in He;
        first [discriminate He | injection He; congruence].
  - intros rest Hheader. unfold defaultGetToken. rewrite Hheader. reflexivity.
  - intros Hheader. unfold defaultGetToken. rewrite Hheader. reflexivity.
  - intros Hheader.
    assert (Hnone : defaultGetToken params = Ok None)
      by (unfold defaultGetToken; rewrite Hheader; reflexivity).
    split; [exact Hnone|]. intros Hget.
    rewrite onRequestParse_run, Hget. cbn [default id].
    rewrite Hnone, hook_authRequired_effective. reflexivity.
Qed.

(** The header [Bearer  x], with two spaces, and authentication required:
    the credential is the empty string, a lookup is made and the provider
    decides. *)
Lemma empty_credential_is_present_witness :
  defaultGetToken (sample_params (Some "Bearer  x")) = Ok (Some EmptyString)
  /\ trace (snd (onRequestParse sample_stringify sample_parse
                   (sample_options None None (Some true))
                   (sample_params (Some "Bearer  x"))
                   (sample_world (Ok (sample_data "admin")) ∅)))
     <> trace (sample_world (Ok (sample_data "admin")) ∅).
Proof.
  pose proof (empty_credential_is_present sample_stringify sample_parse
                (sample_options None None (Some true))
                (sample_params (Some "Bearer  x"))
                (sample_world (Ok (sample_data "admin")) ∅)) as (Hhook & Hdouble & _).
  split.
  - exact (Hdouble "x" eq_refl).
  - exact (proj1 (proj2 (Hhook eq_refl)) eq_refl).
Defined.

(** * Further properties *)

(** ** The extractor *)

(** The first piece of a split has no space, and the rest of the split is
    the split of what follows the first space. *)
Lemma split_first_piece (s : string) :
  exists piece pieces,
    split " " s = piece :: pieces
    /\ has_space piece = false
    /\ ((pieces = [] /\ s = piece)
        \/ exists s', s = piece +:+ String " " s' /\ pieces = split " " s').
Proof.
  induction s as [|ch rest (piece & pieces & Hsplit & Hpiece & Hshape)].
  - exists EmptyString, []. repeat split; auto.
  - cbn [split]. destruct (Ascii.eqb ch " ") eqn:Hch.
    + apply Ascii.eqb_eq in Hch. subst ch.
      exists EmptyString, (split " " rest). repeat split.
      right. exists rest. split; reflexivity.
    + rewrite Hsplit. exists (String ch piece), pieces. split; [reflexivity|].
      split; [cbn [has_space]; rewrite Hch, Hpiece; reflexivity|].
      destruct Hshape as [[-> ->] | (s' & -> & ->)].
      * left. split; reflexivity.
      * right. exists s'. split; reflexivity.
Qed.

Lemma append_empty (s : string) : s +:+ EmptyString = s.
Proof.
  induction s as [|ch s IH]; [reflexivity|].
  change (String ch (s +:+ EmptyString) = String ch s). rewrite IH. reflexivity.
Qed.

(** How a credential relates to the header it was taken from. *)
Theorem defaultGetToken_credential (params : GetTokenParams) (credential : string) :
  defaultGetToken params = Ok (Some credential) ->
  has_space credential = false
  /\ exists rest,
       headers_get (request params) "authorization"
         = Some ("Bearer " +:+ credential +:+ rest)
       /\ (rest = EmptyString \/ exists tail, rest = String " " tail).
Proof.
  unfold defaultGetToken.
  destruct (headers_get (request params) "authorization") as [header|]; [|discriminate].
  destruct (is_empty header); [discriminate|].
  destruct (split_first_piece header) as (scheme & pieces & Hsplit & _ & Hshape).
  rewrite Hsplit. cbn [lookup list_lookup]. rewrite scheme_test.
  destruct (String.eqb_spec scheme "Bearer") as [->|]; cbn [negb]; [|discriminate].
  destruct Hshape as [[-> _] | (s' & -> & ->)]; [discriminate|].
  destruct (split_first_piece s') as (piece & pieces & Hsplit' & Hpiece & Hshape').
  rewrite Hsplit'. cbn [lookup list_lookup]. intros [= <-].
  split; [exact Hpiece|].
  destruct Hshape' as [[_ ->] | (s'' & -> & _)].
  - exists EmptyString. split; [|left; reflexivity].
    rewrite append_empty. reflexivity.
  - exists (String " " s''). split; [reflexivity|]. right. exists s''. reflexivity.
Qed.

(** The header [Bearer abc def] and its credential [abc]. *)
Lemma defaultGetToken_credential_witness :
  has_space "abc" = false
  /\ exists rest,
       headers_get (request (sample_params (Some "Bearer abc def"))) "authorization"
         = Some ("Bearer " +:+ "abc" +:+ rest)
       /\ (rest = EmptyString \/ exists tail, rest = String " " tail).
Proof.
  exact (defaultGetToken_credential (sample_params (Some "Bearer abc def")) "abc" eq_refl).
Defined.

(** The requests that the default extractor takes to carry no credential. *)
Theorem defaultGetToken_absent (params : GetTokenParams) :
  defaultGetToken params = Ok None
  <-> (headers_get (request params) "authorization" = None
       \/ headers_get (request params) "authorization" = Some EmptyString
       \/ headers_get (request params) "authorization" = Some "Bearer").
Proof.
  split.
  - unfold defaultGetToken.
    destruct (headers_get (request params) "authorization") as [header|]; [|auto].
    destruct header as [|ch rest]; [auto|]. cbn [is_empty].
    destruct (split_first_piece (String ch rest)) as (scheme & pieces & Hsplit & _ & Hshape).
    rewrite Hsplit. cbn [lookup list_lookup]. rewrite scheme_test.
    destruct (String.eqb_spec scheme "Bearer") as [->|]; cbn [negb]; [|discriminate].
    destruct Hshape as [[_ ->] | (s' & _ & ->)]; [auto|].
    destruct (split_first_piece s') as (piece & pieces' & -> & _). discriminate.
  - intros [H | [H | H]]; unfold defaultGetToken; rewrite H; reflexivity.
Qed.

(** ** What [authorize] leaves alone *)

Lemma recorded_provider (pm : option PayloadMap) (rq : option Request) (auth : BetterAuth)
    (w : World) :
  provider (recorded pm rq auth w) = provider w.
Proof. destruct pm, rq; reflexivity. Qed.

Lemma recorded_env (pm : option PayloadMap) (rq : option Request) (auth : BetterAuth)
    (w : World) :
  env_BETTER_AUTH_URL (recorded pm rq auth w) = env_BETTER_AUTH_URL w.
Proof. destruct pm, rq; reflexivity. Qed.

Lemma recorded_clock (pm : option PayloadMap) (rq : option Request) (auth : BetterAuth)
    (w : World) :
  clock (recorded pm rq auth w) = clock w.
Proof. destruct pm, rq; reflexivity. Qed.

Lemma recorded_online (pm : option PayloadMap) (rq : option Request) (auth : BetterAuth)
    (w : World) :
  redis_online (recorded pm rq auth w) = redis_online w.
Proof. destruct pm, rq; reflexivity. Qed.

Lemma recorded_keys (pm : option PayloadMap) (rq : option Request) (auth : BetterAuth)
    (w : World) :
  redis_keys (recorded pm rq auth w) = redis_keys w.
Proof. destruct pm, rq; reflexivity. Qed.

Lemma recorded_accepted (pm : option PayloadMap) (rq : option Request) (auth : BetterAuth)
    (w : World) :
  client_accepted (recorded pm rq auth w) = client_accepted w.
Proof. destruct pm, rq; reflexivity. Qed.

Lemma recorded_payload_other (pm : option PayloadMap) (rq : option Request)
    (auth : BetterAuth) (w : World) (id : nat) :
  (forall r, rq = Some r -> request_id r <> id) ->
  payloadByRequest (recorded pm rq auth w) !! id = payloadByRequest w !! id.
Proof.
  intros Hother. destruct pm as [[]|], rq as [r|]; try reflexivity.
  cbn. apply lookup_insert_ne. apply Hother. reflexivity.
Qed.

Ltac world_fields :=
  repeat (progress
            (rewrite ?recorded_provider, ?recorded_env, ?recorded_clock, ?recorded_online,
               ?recorded_keys, ?recorded_accepted, ?trace_recorded;
             cbn [provider env_BETTER_AUTH_URL clock redis_online redis_keys trace
                  client_accepted record_event store_key])).

(** The provider, the environment, the clock, the reachability of the
    cache and what the client library accepts are the same after a call. *)
Lemma authorize_world_frame
    (JSON_stringify : value -> string) (JSON_parse : string -> option value)
    (options : BetterAuthPluginOptions) (token : string)
    (pm : option PayloadMap) (rq : option Request) (w : World) :
  provider (snd (authorize JSON_stringify JSON_parse options token pm rq w)) = provider w
  /\ env_BETTER_AUTH_URL (snd (authorize JSON_stringify JSON_parse options token pm rq w))
     = env_BETTER_AUTH_URL w
  /\ clock (snd (authorize JSON_stringify JSON_parse options token pm rq w)) = clock w
  /\ redis_online (snd (authorize JSON_stringify JSON_parse options token pm rq w))
     = redis_online w
  /\ client_accepted (snd (authorize JSON_stringify JSON_parse options token pm rq w))
     = client_accepted w.
Proof.
  by_path JSON_stringify JSON_parse options token pm rq w;
    repeat case_match; cbn [snd]; world_fields; repeat split; side.
Qed.

(** The per-request store after a call: untouched when the call fails, and
    untouched at every request other than the one that was passed. *)
Theorem authorize_payload_frame
    (JSON_stringify : value -> string) (JSON_parse : string -> option value)
    (options : BetterAuthPluginOptions) (token : string)
    (pm : option PayloadMap) (rq : option Request) (w : World) :
  let outcome := authorize JSON_stringify JSON_parse options token pm rq w in
  (forall e, fst outcome = Throw e -> payloadByRequest (snd outcome) = payloadByRequest w)
  /\ (forall id, (forall r, rq = Some r -> request_id r <> id) ->
        payloadByRequest (snd outcome) !! id = payloadByRequest w !! id)
  /\ (pm = None \/ rq = None -> payloadByRequest (snd outcome) = payloadByRequest w).
Proof.
  cbv zeta. split; [|split].
  - intros e.
    by_path JSON_stringify JSON_parse options token pm rq w;
      repeat case_match; cbn [fst snd]; intros [=]; reflexivity.
  - intros id Hother.
    by_path JSON_stringify JSON_parse options token pm rq w;
      repeat case_match; cbn [snd]; rewrite ?recorded_payload_other by exact Hother;
      reflexivity.
  - intros Hnone.
    assert (Hrec : forall a w0, payloadByRequest (recorded pm rq a w0) = payloadByRequest w0)
      by (intros a w0; destruct Hnone as [-> | ->]; [|destruct pm]; reflexivity).
    by_path JSON_stringify JSON_parse options token pm rq w;
      repeat case_match; cbn [snd]; rewrite ?Hrec; reflexivity.
Qed.

(** A failed call is not recorded. *)
Lemma authorize_payload_frame_witness :
  payloadByRequest
    (snd (authorize sample_stringify sample_parse (sample_options None (Some ["admin"]) None)
            "T" (Some payload_map) (Some (sample_request None))
            (sample_world (Ok (sample_data "editor")) ∅)))
  = ∅.
Proof.
  exact (proj1 (authorize_payload_frame sample_stringify sample_parse
                  (sample_options None (Some ["admin"]) None) "T" (Some payload_map)
                  (Some (sample_request None)) (sample_world (Ok (sample_data "editor")) ∅))
           _ eq_refl).
Defined.

Lemma append_inj_l (a x y : string) : a +:+ x = a +:+ y -> x = y.
Proof.
  induction a as [|ch a IH]; [trivial|].
  change (String ch (a +:+ x) = String ch (a +:+ y) -> x = y).
  intros [= H]. exact (IH H).
Qed.

(** Under one configuration two tokens never share a cache key. *)
Lemma cache_key_inj (options : BetterAuthPluginOptions) (t1 t2 : string) :
  cache_key options t1 = cache_key options t2 -> t1 = t2.
Proof.
  unfold cache_key. intros H. apply append_inj_l in H.
  change (String ":" t1 = String ":" t2) in H. congruence.
Qed.

(** The cache after a call: only the key of the token can have changed,
    so the entry of every other token is as it was; and nothing at all has
    changed without a cache, on a cache hit, or when the call failed
    before its cache write. *)
Theorem authorize_cache_frame
    (JSON_stringify : value -> string) (JSON_parse : string -> option value)
    (options : BetterAuthPluginOptions) (token : string)
    (pm : option PayloadMap) (rq : option Request) (w : World) :
  let outcome := authorize JSON_stringify JSON_parse options token pm rq w in
  (forall key, key <> cache_key options token ->
     redis_keys (snd outcome) !! key = redis_keys w !! key)
  /\ (forall other, other <> token ->
        live_entry (snd outcome) (cache_key options other)
          = live_entry w (cache_key options other))
  /\ (redis options = None -> redis_keys (snd outcome) = redis_keys w)
  /\ (truthy_text (live_entry w (cache_key options token)) = true ->
      redis_keys (snd outcome) = redis_keys w).
Proof.
  cbv zeta.
  assert (Hkeys : forall key, key <> cache_key options token ->
            redis_keys (snd (authorize JSON_stringify JSON_parse options token pm rq w)) !! key
              = redis_keys w !! key).
  { intros key Hkey.
    by_path JSON_stringify JSON_parse options token pm rq w;
      repeat case_match; cbn [snd]; world_fields;
      rewrite ?lookup_insert_ne by congruence; reflexivity. }
  split; [exact Hkeys|]. split; [|split].
  - intros other Hother. unfold live_entry.
    rewrite Hkeys by (intros Heq; apply Hother; exact (cache_key_inj _ _ _ Heq)).
    destruct (authorize_world_frame JSON_stringify JSON_parse options token pm rq w)
      as (_ & _ & -> & _).
    reflexivity.
  - intros Hnone.
    by_path JSON_stringify JSON_parse options token pm rq w; try congruence;
      repeat case_match; cbn [snd]; world_fields; reflexivity.
  - intros Hhit.
    by_path JSON_stringify JSON_parse options token pm rq w;
      try (cbn in Hhit; rewrite ?Hempty in Hhit; discriminate);
      repeat case_match; cbn [snd]; world_fields; reflexivity.
Qed.

(** The entry of another token survives a call. *)
Lemma authorize_cache_frame_witness :
  live_entry
    (snd (authorize sample_stringify sample_parse
            (sample_options (Some redis_client) None None) "T" None None
            (sample_world (Ok (sample_data "admin"))
               {[ "tokens:U" := (data_text "editor", 105) ]})))
    (cache_key (sample_options (Some redis_client) None None) "U")
  = live_entry
      (sample_world (Ok (sample_data "admin")) {[ "tokens:U" := (data_text "editor", 105) ]})
      (cache_key (sample_options (Some redis_client) None None) "U").
Proof.
  refine (proj1 (proj2 (authorize_cache_frame sample_stringify sample_parse
                          (sample_options (Some redis_client) None None) "T" None None
                          (sample_world (Ok (sample_data "admin"))
                             {[ "tokens:U" := (data_text "editor", 105) ]})))
            "U" _).
  discriminate.
Defined.

(** The world in which a later call runs: time has passed and the provider
    may answer otherwise; the rest is as the earlier call left it. *)
Lemma next_call_world
    (JSON_stringify : value -> string) (JSON_parse : string -> option value)
    (options : BetterAuthPluginOptions) (token : string)
    (pm : option PayloadMap) (rq : option Request) (w : World)
    (p : AuthClient -> Result value) (dt : Z) :
  let w1 := snd (authorize JSON_stringify JSON_parse options token pm rq w) in
  let w2 := answering p (elapse dt w1) in
  client_accepted w2 (base_url options w2) = client_accepted w (base_url options w)
  /\ client_for options token w2 = client_for options token w
  /\ redis_online w2 = redis_online w
  /\ provider w2 = p
  /\ trace w2 = trace w1
  /\ payloadByRequest w2 = payloadByRequest w1
  /\ redis_keys w2 = redis_keys w1
  /\ clock w2 = clock w + dt.
Proof.
  cbv zeta.
  destruct (authorize_world_frame JSON_stringify JSON_parse options token pm rq w)
    as (_ & Henv & Hclock & Hon & Haccepted).
  unfold client_for, base_url.
  cbn [client_accepted env_BETTER_AUTH_URL redis_online redis_keys clock provider trace
       payloadByRequest answering elapse].
  rewrite Haccepted, Henv, Hclock, Hon. repeat split.
Qed.

(** Without a cache nothing is remembered between calls: where
    [createAuthClient] builds a client, a second call with the same token
    looks the session up again and ends as a first call would with what
    the provider answers by then; when the provider answers as before, it
    ends as the first call did, and the per-request store is as the first
    call left it. *)
Theorem authorize_twice_without_cache
    (JSON_stringify : value -> string) (JSON_parse : string -> option value)
    (options : BetterAuthPluginOptions) (token : string)
    (pm : option PayloadMap) (rq : option Request) (w : World)
    (later : AuthClient -> Result value) (dt : Z) :
  client_accepted w (base_url options w) = true ->
  redis options = None ->
  let c := client_for options token w in
  let first := authorize JSON_stringify JSON_parse options token pm rq w in
  let second := authorize JSON_stringify JSON_parse options token pm rq
                  (answering later (elapse dt (snd first))) in
  trace (snd second) = trace w ++ [SessionLookup c; SessionLookup c]
  /\ fst second
     = fst (authorize JSON_stringify JSON_parse options token pm rq (answering later w))
  /\ (later c = provider w c ->
      fst second = fst first
      /\ payloadByRequest (snd second) = payloadByRequest (snd first)).
Proof.
  intros Hbuilt Hnone. cbv zeta.
  destruct (next_call_world JSON_stringify JSON_parse options token pm rq w later dt)
    as (Haccepted & Hclient & _ & Hprov & Htrace & Hpayload & _).
  cbv zeta in Haccepted, Hclient, Hprov, Htrace, Hpayload.
  rewrite Hbuilt in Haccepted.
  assert (Hsecond := authorize_uncached JSON_stringify JSON_parse options token pm rq
                       _ Haccepted Hnone).
  cbv zeta in Hsecond. rewrite Hclient, Hprov in Hsecond.
  assert (Hfirst := authorize_uncached JSON_stringify JSON_parse options token pm rq
                      w Hbuilt Hnone).
  cbv zeta in Hfirst.
  assert (Hfresh := authorize_uncached JSON_stringify JSON_parse options token pm rq
                      (answering later w) Hbuilt Hnone).
  cbv zeta in Hfresh.
  change (client_for options token (answering later w)) with (client_for options token w)
    in Hfresh.
  change (provider (answering later w)) with later in Hfresh.
  assert (Hevents : trace (snd (authorize JSON_stringify JSON_parse options token pm rq w))
                    = trace w ++ [SessionLookup (client_for options token w)]).
  { rewrite Hfirst. repeat case_match; cbn [snd]; world_fields; reflexivity. }
  split; [|split].
  - rewrite Hsecond.
    repeat case_match; cbn [snd]; world_fields; rewrite Htrace, Hevents, <- app_assoc;
      reflexivity.
  - rewrite Hsecond, Hfresh. repeat case_match; reflexivity.
  - intros Hsame. rewrite Hsecond, Hfirst, Hsame.
    destruct (provider w _) as [data|e]; [destruct (_ && _)|]; cbn [fst snd];
      (split; [reflexivity|]); world_fields; try exact Hpayload.
    all: try (rewrite Hfirst in Hpayload; rewrite Hsame in Hpayload).
    all: try (destruct pm as [[]|], rq as [r|]; cbn in *; rewrite ?Hpayload;
              rewrite ?insert_insert_eq; reflexivity).
Qed.

(** Two calls for an administrator, no cache, the second one second later. *)
Lemma authorize_twice_without_cache_witness :
  fst (authorize sample_stringify sample_parse (sample_options None None None) "T" None None
         (answering (fun _ => Ok (sample_data "admin"))
            (elapse 1
               (snd (authorize sample_stringify sample_parse (sample_options None None None)
                       "T" None None (sample_world (Ok (sample_data "admin")) ∅))))))
  = fst (authorize sample_stringify sample_parse (sample_options None None None) "T"
           None None (sample_world (Ok (sample_data "admin")) ∅)).
Proof.
  exact (proj1 (proj2 (proj2 (authorize_twice_without_cache sample_stringify sample_parse
                  (sample_options None None None) "T" None None
                  (sample_world (Ok (sample_data "admin")) ∅)
                  (fun _ => Ok (sample_data "admin")) 1 eq_refl eq_refl)) eq_refl)).
Defined.

(** ** More on the cache *)

(** A cached text that is not JSON is neither repaired nor evicted: where
    [createAuthClient] builds a client, the call fails with the
    invalid-token error, a GraphQL error of status 401, after one cache
    read, asks the provider nothing, and a later call, for as long as the
    entry lives and whatever the provider would answer by then, fails in
    the same way. *)
Theorem corrupt_cache_entry_keeps_failing
    (JSON_stringify : value -> string) (JSON_parse : string -> option value)
    (options : BetterAuthPluginOptions) (token : string)
    (pm : option PayloadMap) (rq : option Request) (w : World)
    (text : string) (later : AuthClient -> Result value) (dt : Z) :
  client_accepted w (base_url options w) = true ->
  redis options <> None -> redis_online w = true ->
  live_entry w (cache_key options token) = Some text ->
  text <> EmptyString ->
  JSON_parse text = None ->
  live_entry (elapse dt w) (cache_key options token) = Some text ->
  let denied := Throw (GraphQLError (invalidToken (effective_messages options))
                         {| extensions := Some {| http_status := Some 401 |} |}) in
  let first := authorize JSON_stringify JSON_parse options token pm rq w in
  let second := authorize JSON_stringify JSON_parse options token pm rq
                  (answering later (elapse dt (snd first))) in
  first = (denied, record_event (CacheGet (cache_key options token)) w)
  /\ fst second = denied
  /\ trace (snd second)
     = trace w ++ [CacheGet (cache_key options token); CacheGet (cache_key options token)]
  /\ redis_keys (snd second) = redis_keys w.
Proof.
  intros Hbuilt Hcfg Hon Hlive Htext Hparse Hlater. cbv zeta.
  rewrite (authorize_hit JSON_stringify JSON_parse options token pm rq w text
             Hbuilt Hcfg Hon Hlive (is_empty_false _ Htext)).
  cbv zeta. rewrite Hparse. cbn [fst snd]. split; [reflexivity|].
  rewrite (authorize_hit JSON_stringify JSON_parse options token pm rq
             (answering later (elapse dt (record_event (CacheGet (cache_key options token)) w)))
             text Hbuilt Hcfg Hon Hlater (is_empty_false _ Htext)).
  cbv zeta. rewrite Hparse.
  cbn [fst snd trace redis_keys elapse answering record_event].
  rewrite <- app_assoc. repeat split; reflexivity.
Qed.

Lemma corrupt_cache_entry_keeps_failing_witness :
  fst (authorize sample_stringify sample_parse
         (sample_options (Some redis_client) None None) "T" None None
         (sample_world (Ok (sample_data "admin")) {[ "tokens:T" := ("{oops", 105) ]}))
  = Throw (GraphQLError "The provided access token is invalid."
             {| extensions := Some {| http_status := Some 401 |} |}).
Proof.
  refine (f_equal fst (proj1
            (corrupt_cache_entry_keeps_failing sample_stringify sample_parse
               (sample_options (Some redis_client) None None) "T" None None
               (sample_world (Ok (sample_data "admin")) {[ "tokens:T" := ("{oops", 105) ]})
               "{oops" (fun _ => Ok VNull) 2 _ _ _ _ _ _ _)));
    try reflexivity; discriminate.
Defined.

(** The cache write comes before the role check.  Where [createAuthClient]
    builds a client, data that the role check refuses is cached all the
    same: the first call fails with the invalid-token error, and a second
    call within the time to live is served from the cache without a
    lookup, whatever the provider would answer by then; it reads what
    [JSON.parse] makes of the cached text, and when that still names a user
    whose role is refused, it fails with the permission error.  Both are
    GraphQL errors of status 401. *)
Theorem role_refusal_is_cached
    (JSON_stringify : value -> string) (JSON_parse : string -> option value)
    (options : BetterAuthPluginOptions) (token : string)
    (pm : option PayloadMap) (rq : option Request) (w : World)
    (data parsed : value) (later : AuthClient -> Result value) (dt : Z) :
  client_accepted w (base_url options w) = true ->
  redis options <> None -> redis_online w = true ->
  truthy_text (live_entry w (cache_key options token)) = false ->
  provider w (client_for options token w) = Ok data ->
  truthy (optional_member data "session") = true ->
  role_check_passes (default [] (allowedRoles options)) data = false ->
  JSON_stringify data <> EmptyString ->
  JSON_parse (JSON_stringify data) = Some parsed ->
  nullish parsed = false ->
  nullish (member parsed "user") = false ->
  role_check_passes (default [] (allowedRoles options)) parsed = false ->
  0 <= dt < default 5 (cacheExpiration options) ->
  let msgs := effective_messages options in
  let key := cache_key options token in
  let first := authorize JSON_stringify JSON_parse options token pm rq w in
  let second := authorize JSON_stringify JSON_parse options token pm rq
                  (answering later (elapse dt (snd first))) in
  fst first = Throw (GraphQLError (invalidToken msgs)
                       {| extensions := Some {| http_status := Some 401 |} |})
  /\ live_entry (snd first) key = Some (JSON_stringify data)
  /\ fst second = Throw (GraphQLError (invalidPermissions msgs)
                           {| extensions := Some {| http_status := Some 401 |} |})
  /\ trace (snd second) = trace (snd first) ++ [CacheGet key].
Proof.
  intros Hbuilt Hcfg Hon Hmiss Hprov Hsession Hrole Htext Hround Hparsed Huser Hrole' Hdt.
  destruct (authorize_miss_world JSON_stringify JSON_parse options token pm rq w data
              Hbuilt Hcfg Hon Hmiss Hprov Hsession ltac:(lia))
    as (Hfirst & Htrace1 & Hon1 & Hkeys1 & Hclock1 & Henv1 & Haccepted1).
  rewrite Hrole in Hfirst. cbv zeta.
  set (first := authorize JSON_stringify JSON_parse options token pm rq w) in *.
  destruct (later_world options token w (snd first) later (JSON_stringify data)
              (default 5 (cacheExpiration options)) dt
              Hbuilt Hon1 Hkeys1 Hclock1 Henv1 Haccepted1)
    as (Hbuilt2 & Hon2 & Hclient2 & Hprov2 & Htrace2 & Hlive2).
  cbv zeta in Hbuilt2, Hon2, Hclient2, Hprov2, Htrace2, Hlive2.
  destruct (Z.ltb_spec (clock w + dt) (clock w + default 5 (cacheExpiration options)));
    [|lia].
  split; [exact Hfirst|]. split.
  { unfold live_entry. rewrite Hkeys1, Hclock1, lookup_insert_eq.
    destruct (Z.ltb_spec (clock w) (clock w + default 5 (cacheExpiration options)));
      [reflexivity | lia]. }
  rewrite (authorize_hit JSON_stringify JSON_parse options token pm rq _
             (JSON_stringify data) Hbuilt2 Hcfg Hon2 Hlive2 (is_empty_false _ Htext)).
  cbv zeta. rewrite Hround, Hparsed, Hrole', Huser. cbn [fst snd].
  split; [reflexivity|]. cbn [trace record_event]. rewrite Htrace2. reflexivity.
Qed.

(** An editor asks twice where only administrators are allowed. *)
Lemma role_refusal_is_cached_witness :
  fst (authorize sample_stringify sample_parse
         (sample_options (Some redis_client) (Some ["admin"]) None) "T" None None
         (sample_world (Ok (sample_data "editor")) ∅))
    = Throw (GraphQLError "The provided access token is invalid."
               {| extensions := Some {| http_status := Some 401 |} |})
  /\ fst (authorize sample_stringify sample_parse
            (sample_options (Some redis_client) (Some ["admin"]) None) "T" None None
            (answering (fun _ => Throw (Error "session revoked"))
               (elapse 2
                  (snd (authorize sample_stringify sample_parse
                          (sample_options (Some redis_client) (Some ["admin"]) None) "T"
                          None None (sample_world (Ok (sample_data "editor")) ∅))))))
    = Throw (GraphQLError "You do not have the necessary permissions to access this resource."
               {| extensions := Some {| http_status := Some 401 |} |}).
Proof.
  assert (H := role_refusal_is_cached sample_stringify sample_parse
                 (sample_options (Some redis_client) (Some ["admin"]) None) "T" None None
                 (sample_world (Ok (sample_data "editor")) ∅)
                 (sample_data "editor") (sample_data "editor")
                 (fun _ => Throw (Error "session revoked")) 2).
  cbv zeta in H.
  refine ((fun H' => conj (proj1 H') (proj1 (proj2 (proj2 H'))))
            (H _ _ _ _ _ _ _ _ _ _ _ _ _));
    try reflexivity; try discriminate.
  cbn. lia.
Defined.

(** Once the time to live has passed the entry is dead: where
    [createAuthClient] builds a client, the next call reads the cache and
    looks the session up again, and it ends as the provider answers by
    then.  A session that has expired or was revoked meanwhile ends in the
    invalid-token error with no cache write; a session that is valid is
    written to the cache again and the role check decides; when the
    provider answers as before, the call ends as the first call did. *)
Theorem expired_entry_is_looked_up_again
    (JSON_stringify : value -> string) (JSON_parse : string -> option value)
    (options : BetterAuthPluginOptions) (token : string)
    (pm : option PayloadMap) (rq : option Request) (w : World)
    (data : value) (later : AuthClient -> Result value) (dt : Z) :
  client_accepted w (base_url options w) = true ->
  redis options <> None -> redis_online w = true ->
  truthy_text (live_entry w (cache_key options token)) = false ->
  provider w (client_for options token w) = Ok data ->
  truthy (optional_member data "session") = true ->
  0 < default 5 (cacheExpiration options) <= dt ->
  let c := client_for options token w in
  let key := cache_key options token in
  let seconds := default 5 (cacheExpiration options) in
  let denied := Throw (GraphQLError (invalidToken (effective_messages options))
                         {| extensions := Some {| http_status := Some 401 |} |}) in
  let first := authorize JSON_stringify JSON_parse options token pm rq w in
  let second := authorize JSON_stringify JSON_parse options token pm rq
                  (answering later (elapse dt (snd first))) in
  ((forall data', later c = Ok data' -> truthy (optional_member data' "session") = false) ->
   fst second = denied
   /\ trace (snd second) = trace (snd first) ++ [CacheGet key; SessionLookup c]
   /\ redis_keys (snd second) = redis_keys (snd first))
  /\ (forall data',
        later c = Ok data' -> truthy (optional_member data' "session") = true ->
        fst second = (if role_check_passes (default [] (allowedRoles options)) data'
                      then Ok (identity_of c data') else denied)
        /\ trace (snd second)
           = trace (snd first)
               ++ [CacheGet key; SessionLookup c; CacheSetEx key seconds (JSON_stringify data')]
        /\ live_entry (snd second) key = Some (JSON_stringify data'))
  /\ (later c = provider w c -> fst second = fst first).
Proof.
  intros Hbuilt Hcfg Hon Hmiss Hprov Hsession Hdt.
  destruct (authorize_miss_world JSON_stringify JSON_parse options token pm rq w data
              Hbuilt Hcfg Hon Hmiss Hprov Hsession ltac:(lia))
    as (Hfirst & Htrace1 & Hon1 & Hkeys1 & Hclock1 & Henv1 & Haccepted1).
  cbv zeta.
  set (first := authorize JSON_stringify JSON_parse options token pm rq w) in *.
  destruct (later_world options token w (snd first) later (JSON_stringify data)
              (default 5 (cacheExpiration options)) dt
              Hbuilt Hon1 Hkeys1 Hclock1 Henv1 Haccepted1)
    as (Hbuilt2 & Hon2 & Hclient2 & Hprov2 & Htrace2 & Hlive2).
  cbv zeta in Hbuilt2, Hon2, Hclient2, Hprov2, Htrace2, Hlive2.
  set (w2 := answering later (elapse dt (snd first))) in *.
  destruct (Z.ltb_spec (clock w + dt) (clock w + default 5 (cacheExpiration options)));
    [lia|].
  assert (Hmiss2 : truthy_text (live_entry w2 (cache_key options token)) = false)
    by (rewrite Hlive2; reflexivity).
  assert (Hvalid : forall data',
            later (client_for options token w) = Ok data' ->
            truthy (optional_member data' "session") = true ->
            fst (authorize JSON_stringify JSON_parse options token pm rq w2)
              = (if role_check_passes (default [] (allowedRoles options)) data'
                 then Ok (identity_of (client_for options token w) data')
                 else Throw (GraphQLError (invalidToken (effective_messages options))
                               {| extensions := Some {| http_status := Some 401 |} |}))
            /\ trace (snd (authorize JSON_stringify JSON_parse options token pm rq w2))
               = trace (snd first)
                   ++ [CacheGet (cache_key options token);
                       SessionLookup (client_for options token w);
                       CacheSetEx (cache_key options token)
                         (default 5 (cacheExpiration options)) (JSON_stringify data')]
            /\ live_entry (snd (authorize JSON_stringify JSON_parse options token pm rq w2))
                 (cache_key options token) = Some (JSON_stringify data')).
  { intros data' Hlater Hsession'.
    assert (Hprov' : provider w2 (client_for options token w2) = Ok data')
      by (rewrite Hclient2, Hprov2; exact Hlater).
    destruct (authorize_miss_world JSON_stringify JSON_parse options token pm rq w2 data'
                Hbuilt2 Hcfg Hon2 Hmiss2 Hprov' Hsession' ltac:(lia))
      as (Hsecond & Htrace' & _ & Hkeys' & Hclock' & _).
    rewrite Hclient2 in Hsecond, Htrace'. rewrite Htrace2 in Htrace'.
    split; [exact Hsecond|]. split; [exact Htrace'|].
    unfold live_entry. rewrite Hkeys', Hclock', lookup_insert_eq.
    destruct (Z.ltb_spec (clock w2) (clock w2 + default 5 (cacheExpiration options)));
      [reflexivity | lia]. }
  split; [|split].
  - intros Hgone.
    rewrite (authorize_miss JSON_stringify JSON_parse options token pm rq w2
               Hbuilt2 Hcfg Hon2 Hmiss2).
    cbv zeta. rewrite Hclient2, Hprov2.
    destruct (later _) as [data'|e] eqn:Hlater.
    + rewrite (Hgone data' eq_refl). cbn [fst snd trace redis_keys record_event].
      rewrite Htrace2, <- app_assoc. repeat split.
    + cbn [fst snd trace redis_keys record_event].
      rewrite Htrace2, <- app_assoc. repeat split.
  - exact Hvalid.
  - intros Hsame. rewrite Hprov in Hsame.
    destruct (Hvalid data Hsame Hsession) as (-> & _). rewrite Hfirst. reflexivity.
Qed.

(** Six seconds after the first call, with the same answer and with the
    session revoked. *)
Lemma expired_entry_is_looked_up_again_witness :
  fst (authorize sample_stringify sample_parse
         (sample_options (Some redis_client) None None) "T" None None
         (answering (fun _ => Ok VNull)
            (elapse 6
               (snd (authorize sample_stringify sample_parse
                       (sample_options (Some redis_client) None None) "T" None None
                       (sample_world (Ok (sample_data "admin")) ∅))))))
  = Throw (GraphQLError "The provided access token is invalid."
             {| extensions := Some {| http_status := Some 401 |} |}).
Proof.
  refine (proj1 (proj1
            (expired_entry_is_looked_up_again sample_stringify sample_parse
               (sample_options (Some redis_client) None None) "T" None None
               (sample_world (Ok (sample_data "admin")) ∅) (sample_data "admin")
               (fun _ => Ok VNull) 6 _ _ _ _ _ _ _) _));
    try reflexivity; try discriminate.
  - cbn. lia.
  - intros data' [= <-]. reflexivity.
Defined.

(** A time to live of zero or less makes every cache miss fail, Redis
    refusing such a time to live: where [createAuthClient] builds a client
    the cache write is refused inside the [try], so a valid session ends
    in the invalid-token error, a GraphQL error of status 401, and neither
    the cache nor the per-request store has changed. *)
Theorem non_positive_expiration_rejects_every_miss
    (JSON_stringify : value -> string) (JSON_parse : string -> option value)
    (options : BetterAuthPluginOptions) (token : string)
    (pm : option PayloadMap) (rq : option Request) (w : World) :
  client_accepted w (base_url options w) = true ->
  redis options <> None -> redis_online w = true ->
  truthy_text (live_entry w (cache_key options token)) = false ->
  default 5 (cacheExpiration options) <= 0 ->
  let outcome := authorize JSON_stringify JSON_parse options token pm rq w in
  fst outcome = Throw (GraphQLError (invalidToken (effective_messages options))
                         {| extensions := Some {| http_status := Some 401 |} |})
  /\ redis_keys (snd outcome) = redis_keys w
  /\ payloadByRequest (snd outcome) = payloadByRequest w.
Proof.
  intros Hbuilt Hcfg Hon Hmiss Hseconds. cbv zeta.
  rewrite (authorize_miss JSON_stringify JSON_parse options token pm rq w
             Hbuilt Hcfg Hon Hmiss).
  cbv zeta.
  destruct (Z.ltb_spec 0 (default 5 (cacheExpiration options))) as [|_]; [lia|].
  destruct (provider w _) as [data|e]; [|repeat split; reflexivity].
  destruct (truthy (optional_member data "session")); repeat split; reflexivity.
Qed.

(** A valid administrator session and [cacheExpiration = 0]. *)
Lemma non_positive_expiration_rejects_every_miss_witness :
  fst (authorize sample_stringify sample_parse
         {| baseURL := None; redis := Some redis_client; cachePrefix := None;
            cacheExpiration := Some 0; plugins := None; suppressRoleWarning := None;
            extendContextField := None; allowedRoles := None; requireAuth := None;
            messages := None; getToken := None |}
         "T" None None (sample_world (Ok (sample_data "admin")) ∅))
  = Throw (GraphQLError "The provided access token is invalid."
             {| extensions := Some {| http_status := Some 401 |} |}).
Proof.
  refine (proj1 (non_positive_expiration_rejects_every_miss sample_stringify sample_parse
                   {| baseURL := None; redis := Some redis_client; cachePrefix := None;
                      cacheExpiration := Some 0; plugins := None;
                      suppressRoleWarning := None; extendContextField := None;
                      allowedRoles := None; requireAuth := None; messages := None;
                      getToken := None |}
                   "T" None None (sample_world (Ok (sample_data "admin")) ∅) _ _ _ _ _));
    try reflexivity; try discriminate.
Defined.

(** A cache that cannot be reached stops the request before any lookup, and
    not with a 401: where [createAuthClient] builds a client, what
    [redis.get] throws leaves [authorize] and the pre-parse hook as it is,
    and nothing is recorded. *)
Theorem cache_outage_is_not_a_401
    (JSON_stringify : value -> string) (JSON_parse : string -> option value)
    (options : BetterAuthPluginOptions) (params : GetTokenParams) (token : string)
    (w : World) :
  client_accepted w (base_url options w) = true ->
  redis options <> None -> redis_online w = false ->
  default defaultGetToken (getToken options) params = Ok (Some token) ->
  let e := ForeignError "ClientClosedError" in
  onRequestParse JSON_stringify JSON_parse options params w
    = (Throw e, record_event (CacheGet (cache_key options token)) w)
  /\ (forall pm rq,
        authorize JSON_stringify JSON_parse options token pm rq w
          = (Throw e, record_event (CacheGet (cache_key options token)) w))
  /\ instanceof_GraphQLError e = false
  /\ (forall message opts, e <> unauthorizedError message opts).
Proof.
  intros Hbuilt Hcfg Hoff Htoken. cbv zeta.
  split; [|split; [|split; [reflexivity | discriminate]]].
  - rewrite onRequestParse_run, Htoken. cbv zeta.
    rewrite (authorize_offline JSON_stringify JSON_parse options token _ _ w Hbuilt Hcfg Hoff).
    reflexivity.
  - intros pm rq.
    apply (authorize_offline JSON_stringify JSON_parse options token pm rq w Hbuilt Hcfg Hoff).
Qed.

Lemma cache_outage_is_not_a_401_witness :
  fst (onRequestParse sample_stringify sample_parse
         (sample_options (Some redis_client) None None) (sample_params (Some "Bearer T"))
         {| env_BETTER_AUTH_URL := None; client_accepted := sample_accepts;
            provider := fun _ => Ok (sample_data "admin");
            redis_online := false; redis_keys := ∅; clock := 0;
            payloadByRequest := ∅; trace := [] |})
  = Throw (ForeignError "ClientClosedError").
Proof.
  exact (f_equal fst (proj1
           (cache_outage_is_not_a_401 sample_stringify sample_parse
              (sample_options (Some redis_client) None None) (sample_params (Some "Bearer T"))
              "T"
              {| env_BETTER_AUTH_URL := None; client_accepted := sample_accepts;
                 provider := fun _ => Ok (sample_data "admin");
                 redis_online := false; redis_keys := ∅; clock := 0;
                 payloadByRequest := ∅; trace := [] |}
              eq_refl ltac:(discriminate) eq_refl eq_refl))).
Defined.

(** ** Role enforcement in [handleAuthData] *)

(** With an empty allowed-role set [handleAuthData] accepts every value
    that is not null.  With a non-empty set, and data that has a user
    record, it succeeds exactly when the role, read as [user] when falsy,
    is a string of the set; otherwise it throws the permission error and
    records nothing.  A role that is not a string is never accepted. *)
Theorem handleAuthData_role_enforcement
    (data : value) (c : AuthClient) (roles : list string) (msgs : Messages)
    (pm : option PayloadMap) (rq : option Request) (w : World) :
  let accepted := (Ok (identity_of c data), recorded pm rq (identity_of c data) w) in
  let refused := (Throw (unauthorizedError (invalidPermissions msgs) None), w) in
  (nullish data = false -> roles = [] ->
   handleAuthData data c roles msgs pm rq w = accepted)
  /\ (nullish (member data "user") = false -> roles <> [] ->
      ((exists role, userRole data = VStr role /\ In role roles) ->
       handleAuthData data c roles msgs pm rq w = accepted)
      /\ (~ (exists role, userRole data = VStr role /\ In role roles) ->
          handleAuthData data c roles msgs pm rq w = refused)).
Proof.
  cbv zeta. split.
  - intros Hdata ->. rewrite handleAuthData_run, Hdata. reflexivity.
  - intros Huser Hroles.
    assert (Hdata : nullish data = false).
    { apply (nullish_false_of_member _ "user"). intros Hu. rewrite Hu in Huser. discriminate. }
    rewrite handleAuthData_run, Hdata, Huser.
    assert (Hcheck : role_check_passes roles data = true
                     <-> exists role, userRole data = VStr role /\ In role roles).
    { unfold role_check_passes. destruct roles as [|r roles]; [congruence|].
      rewrite Huser. cbn [negb andb]. split.
      - destruct (userRole data) as [| | | |role| | |] eqn:Hrole; try discriminate.
        intros Hin. exists role. split; [reflexivity|]. apply includes_In. exact Hin.
      - intros (role & -> & Hin). apply includes_In. exact Hin. }
    destruct (role_check_passes roles data).
    + split; [reflexivity|]. intros Hnot. exfalso. apply Hnot, Hcheck. reflexivity.
    + split; [|reflexivity]. intros Hyes. apply Hcheck in Hyes. discriminate.
Qed.

(** A numeric role is refused even where it might look allowed. *)
Lemma handleAuthData_role_enforcement_witness :
  handleAuthData (VObj [("session", sample_session); ("user", VObj [("role", VNum 1)])])
    (bound_client None None "T") ["1"; "admin"] default_messages None None
    (sample_world (Ok VNull) ∅)
  = (Throw (unauthorizedError (invalidPermissions default_messages) None),
     sample_world (Ok VNull) ∅).
Proof.
  refine (proj2 (proj2 (handleAuthData_role_enforcement
                          (VObj [("session", sample_session); ("user", VObj [("role", VNum 1)])])
                          (bound_client None None "T") ["1"; "admin"] default_messages
                          None None (sample_world (Ok VNull) ∅)) eq_refl _) _).
  - discriminate.
  - intros (role & Hrole & _). discriminate Hrole.
Defined.

(** ** The hooks together *)

(** From header to context.  For a request with the header [Bearer t],
    read by the default extractor, a base URL for which [createAuthClient]
    builds a client, no cache, a provider that reports a valid session,
    and data that passes the role check: the pre-parse hook
    succeeds after one session lookup, and the context-build hook for the
    same request puts into the context, under [extendContextField], the
    identity made of the provider's session and user and of a client bound
    to [t]. *)
Theorem bearer_request_reaches_context
    (JSON_stringify : value -> string) (JSON_parse : string -> option value)
    (options : BetterAuthPluginOptions) (params : GetTokenParams) (w : World)
    (context : gmap string ContextValue) (t : string) (data : value) :
  getToken options = None -> redis options = None ->
  client_accepted w (base_url options w) = true ->
  headers_get (request params) "authorization" = Some ("Bearer " +:+ t) ->
  has_space t = false ->
  provider w (client_for options t w) = Ok data ->
  truthy (optional_member data "session") = true ->
  role_check_passes (default [] (allowedRoles options)) data = true ->
  context !! "request" = Some (CtxRequest (request params)) ->
  let auth := {| client := client_for options t w;
                 session := member data "session";
                 user := member data "user" |} in
  exists w',
    onRequestParse JSON_stringify JSON_parse options params w = (Ok tt, w')
    /\ trace w' = trace w ++ [SessionLookup (client_for options t w)]
    /\ onContextBuilding options context w'
       = (Ok (<[default "auth" (extendContextField options) := CtxAuth auth]> context), w')
    /\ client_token (client auth) = t.
Proof.
  intros Hget Hnone Hbuilt Hheader Hspace Hprov Hsession Hrole Hrequest. cbv zeta.
  assert (Htoken : default defaultGetToken (getToken options) params = Ok (Some t)).
  { rewrite Hget. cbn [default id].
    rewrite (defaultGetToken_pieces params _ "Bearer" [t] Hheader); [reflexivity..|].
    change (split " " ("Bearer" +:+ String " " t) = ["Bearer"; t]).
    rewrite split_at_space by reflexivity. rewrite (split_no_space _ Hspace). reflexivity. }
  rewrite onRequestParse_run, Htoken. cbv zeta.
  rewrite (authorize_uncached JSON_stringify JSON_parse options t _ _ w Hbuilt Hnone).
  cbv zeta. rewrite Hprov, Hsession, Hrole. cbn [andb fst snd].
  eexists. split; [reflexivity|]. split; [reflexivity|]. split; [|reflexivity].
  unfold onContextBuilding. rewrite Hrequest. run_monad.
  cbn [payloadByRequest recorded store_payload]. rewrite lookup_insert_eq. reflexivity.
Qed.

Lemma bearer_request_reaches_context_witness :
  exists w',
    onRequestParse sample_stringify sample_parse (sample_options None None None)
      (sample_params (Some "Bearer T")) (sample_world (Ok (sample_data "admin")) ∅)
    = (Ok tt, w')
    /\ onContextBuilding (sample_options None None None)
         {[ "request" := CtxRequest (sample_request (Some "Bearer T")) ]} w'
       = (Ok (<["auth" := CtxAuth {| client := bound_client (Some "https://auth.example")
                                                None "T";
                                      session := sample_session;
                                      user := sample_user "admin" |}]>
                {[ "request" := CtxRequest (sample_request (Some "Bearer T")) ]}), w').
Proof.
  destruct (bearer_request_reaches_context sample_stringify sample_parse
              (sample_options None None None) (sample_params (Some "Bearer T"))
              (sample_world (Ok (sample_data "admin")) ∅)
              {[ "request" := CtxRequest (sample_request (Some "Bearer T")) ]}
              "T" (sample_data "admin")
              eq_refl eq_refl eq_refl eq_refl eq_refl eq_refl eq_refl eq_refl
              (lookup_singleton_eq _ _))
    as (w' & Hparse & _ & Hbuild & _).
  exists w'. split; [exact Hparse | exact Hbuild].
Defined.

(** With the default extractor, a failure of the pre-parse hook is a
    GraphQL error with HTTP status 401, with two exceptions: the base URL
    is one for which [createAuthClient] builds no client, and the error is
    the library's own; or a cache is configured and cannot be reached, and
    the error is what [redis.get] throws. *)
Theorem hook_failures_are_401
    (JSON_stringify : value -> string) (JSON_parse : string -> option value)
    (options : BetterAuthPluginOptions) (params : GetTokenParams) (w : World) (e : exn) :
  getToken options = None ->
  fst (onRequestParse JSON_stringify JSON_parse options params w) = Throw e ->
  (exists message,
     e = GraphQLError message {| extensions := Some {| http_status := Some 401 |} |})
  \/ (client_accepted w (base_url options w) = false
      /\ e = ForeignError "BetterAuthError")
  \/ (client_accepted w (base_url options w) = true
      /\ redis options <> None /\ redis_online w = false
      /\ e = ForeignError "ClientClosedError").
Proof.
  intros Hget. rewrite onRequestParse_run, Hget. cbn [default id].
  destruct (defaultGetToken params) as [[token|]|e0] eqn:Htoken.
  - cbv zeta. cbn [fst].
    destruct (fst (authorize _ _ _ _ _ _ _)) as [auth|e1] eqn:Hauth; [discriminate|].
    intros [= <-]. revert Hauth.
    by_path JSON_stringify JSON_parse options token (Some payload_map)
      (Some (request params)) w;
      repeat case_match; cbn [fst]; intros [= <-];
      first [ left; eexists; reflexivity
            | right; left; split; reflexivity
            | right; right; repeat split; first [reflexivity | congruence] ].
  - destruct (default false (requireAuth options)); cbn [fst]; intros [= <-].
    left. eexists. reflexivity.
  - cbn [fst]. intros [= <-]. left. unfold defaultGetToken in Htoken.
    destruct (headers_get (request params) "authorization") as [h|]; [|discriminate].
    destruct (is_empty h); [discriminate|].
    destruct (negb _); [|discriminate].
    injection Htoken as <-. eexists. reflexivity.
Qed.

(** A base URL that the library refuses: the failure is no 401. *)
Lemma hook_failures_are_401_witness :
  (exists message,
     ForeignError "BetterAuthError"
     = GraphQLError message {| extensions := Some {| http_status := Some 401 |} |})
  \/ (client_accepted (sample_world (Ok VNull) ∅)
        (base_url (misconfigured_options None None None) (sample_world (Ok VNull) ∅)) = false
      /\ ForeignError "BetterAuthError" = ForeignError "BetterAuthError")
  \/ (client_accepted (sample_world (Ok VNull) ∅)
        (base_url (misconfigured_options None None None) (sample_world (Ok VNull) ∅)) = true
      /\ redis (misconfigured_options None None None) <> None
      /\ redis_online (sample_world (Ok VNull) ∅) = false
      /\ ForeignError "BetterAuthError" = ForeignError "ClientClosedError").
Proof.
  exact (hook_failures_are_401 sample_stringify sample_parse
           (misconfigured_options None None None)
           (sample_params (Some "Bearer T")) (sample_world (Ok VNull) ∅)
           (ForeignError "BetterAuthError") eq_refl eq_refl).
Defined.

(** ** The earlier variant of the hook *)

(** The earlier hook as one case analysis. *)
Lemma onRequestParse_legacy_run (env_at_setup : option string)
    (options : BetterAuthPluginOptions) (params : GetTokenParams) (w : World) :
  onRequestParse_legacy env_at_setup options params w =
    let msgs := effective_messages options in
    let roles := default [] (allowedRoles options) in
    let denied := Throw (unauthorizedError (invalidToken msgs) None) in
    match default defaultGetToken (getToken options) params with
    | Throw e => (Throw e, w)
    | Ok (Some token) =>
        let url := match baseURL options with Some u => Some u | None => env_at_setup end in
        if client_accepted w url then
          let c := bound_client url (plugins options) token in
          let w1 := record_event (SessionLookup c) w in
          match provider w c with
          | Ok data =>
              if truthy (optional_member data "session") then
                if role_check_passes roles data
                then (Ok tt, store_payload (request params) (identity_of c data) w1)
                else if nullish (member data "user") then (denied, w1)
                else (Throw (unauthorizedError (invalidPermissions msgs) None), w1)
              else (denied, w1)
          | Throw e => (if instanceof_GraphQLError e then Throw e else denied, w1)
          end
        else (denied, w)
    | Ok None =>
        if default false (requireAuth options)
        then (Throw (unauthorizedError (authRequired msgs) None), w)
        else (Ok tt, w)
    end.
Proof.
  unfold onRequestParse_legacy, createAuthClient, effective_messages. cbv zeta. run_monad.
  destruct (default defaultGetToken (getToken options) params) as [[token|]|e]; try reflexivity.
  - destruct (client_accepted w _); [|reflexivity].
    destruct (provider w _) as [data|e]; [|destruct (instanceof_GraphQLError e); reflexivity].
    destruct (truthy (optional_member data "session")) eqn:Hs; cbn [negb]; [|reflexivity].
    pose proof (truthy_session_not_nullish _ Hs) as Hdata.
    unfold role_check_passes, userRole, identity_of.
    destruct (default [] (allowedRoles options)) as [|r roles]; cbn [length Nat.ltb Nat.leb].
    + rewrite Hdata. reflexivity.
    + rewrite Hdata.
      destruct (nullish (member data "user")); cbn [negb andb]; [reflexivity|].
      destruct (includes (r :: roles) _); reflexivity.
  - destruct (default false (requireAuth options)); reflexivity.
Qed.

(** The two variants of the pre-parse hook, for a configuration without a
    cache and an unchanged environment.  They make the same calls and
    record the same identity, and one succeeds exactly when the other
    does.  They differ in the error only, in two ways.  Where the earlier
    variant lets a GraphQL error through (the permission error of the role
    check, or a GraphQL error thrown by the lookup), the present one
    reports the invalid-token error.  Where [createAuthClient] builds no
    client, the earlier variant, which calls it inside its [try], reports
    the invalid-token error with status 401, and the present one, which
    calls it outside every [try], lets the library's own error through. *)
Theorem legacy_hook_differs_in_error_only
    (JSON_stringify : value -> string) (JSON_parse : string -> option value)
    (env_at_setup : option string)
    (options : BetterAuthPluginOptions) (params : GetTokenParams) (w : World) :
  redis options = None ->
  (baseURL options = None -> env_at_setup = env_BETTER_AUTH_URL w) ->
  let msgs := effective_messages options in
  let invalid := GraphQLError (invalidToken msgs)
                   {| extensions := Some {| http_status := Some 401 |} |} in
  let earlier := onRequestParse_legacy env_at_setup options params w in
  let present := onRequestParse JSON_stringify JSON_parse options params w in
  snd earlier = snd present
  /\ (fst earlier = Ok tt <-> fst present = Ok tt)
  /\ (forall e, fst earlier = Throw e ->
        fst present = Throw e
        \/ (client_accepted w (base_url options w) = true
            /\ instanceof_GraphQLError e = true
            /\ fst present = Throw invalid)
        \/ (client_accepted w (base_url options w) = false
            /\ e = invalid
            /\ fst present = Throw (ForeignError "BetterAuthError")))
  /\ (forall token data,
        default defaultGetToken (getToken options) params = Ok (Some token) ->
        client_accepted w (base_url options w) = true ->
        provider w (client_for options token w) = Ok data ->
        truthy (optional_member data "session") = true ->
        nullish (member data "user") = false ->
        role_check_passes (default [] (allowedRoles options)) data = false ->
        fst earlier = Throw (GraphQLError (invalidPermissions msgs)
                               {| extensions := Some {| http_status := Some 401 |} |})
        /\ fst present = Throw invalid)
  /\ (forall token,
        default defaultGetToken (getToken options) params = Ok (Some token) ->
        client_accepted w (base_url options w) = false ->
        earlier = (Throw invalid, w)
        /\ present = (Throw (ForeignError "BetterAuthError"), w)).
Proof.
  intros Hnone Henv. cbv zeta.
  assert (Hurl : match baseURL options with Some u => Some u | None => env_at_setup end
                 = base_url options w).
  { unfold base_url. destruct (baseURL options); [reflexivity|]. apply Henv. reflexivity. }
  rewrite onRequestParse_legacy_run, onRequestParse_run, hook_authRequired_effective.
  cbv zeta. rewrite Hurl.
  change (bound_client (base_url options w) (plugins options))
    with (fun token => client_for options token w).
  destruct (default defaultGetToken (getToken options) params) as [[token|]|e0] eqn:Htoken.
  - destruct (client_accepted w (base_url options w)) eqn:Hbuilt.
    + rewrite (authorize_uncached JSON_stringify JSON_parse options token _ _ w Hbuilt Hnone).
      cbv zeta beta.
      destruct (provider w _) as [data|e0] eqn:Hprov;
        [ destruct (truthy (optional_member data "session")) eqn:Hsession;
          [ destruct (role_check_passes _ data) eqn:Hrole;
            [ | destruct (nullish (member data "user")) eqn:Huser ]
          | ]
        | destruct (instanceof_GraphQLError e0) eqn:Hkind ];
        cbn [andb fst snd]; repeat split; intros; simplify_eq;
        first [ reflexivity | congruence | left; reflexivity
              | right; left; repeat split; first [ reflexivity | congruence ] ].
    + rewrite (authorize_rejected JSON_stringify JSON_parse options token _ _ w Hbuilt).
      cbn [fst snd]. repeat split; intros; simplify_eq;
        first [ reflexivity | congruence | right; right; repeat split; reflexivity ].
  - destruct (default false (requireAuth options)); cbn [fst snd];
      repeat split; intros; simplify_eq;
      first [ reflexivity | congruence | left; reflexivity ].
  - cbn [fst snd]. repeat split; intros; simplify_eq;
      first [ reflexivity | congruence | left; reflexivity ].
Qed.

(** An editor where only administrators are allowed: the earlier variant
    says so, the present one reports an invalid token. *)
Lemma legacy_hook_differs_in_error_only_witness :
  fst (onRequestParse_legacy (Some "https://auth.example")
         (sample_options None (Some ["admin"]) None) (sample_params (Some "Bearer T"))
         (sample_world (Ok (sample_data "editor")) ∅))
    = Throw (GraphQLError "You do not have the necessary permissions to access this resource."
               {| extensions := Some {| http_status := Some 401 |} |})
  /\ fst (onRequestParse sample_stringify sample_parse
            (sample_options None (Some ["admin"]) None) (sample_params (Some "Bearer T"))
            (sample_world (Ok (sample_data "editor")) ∅))
    = Throw (GraphQLError "The provided access token is invalid."
               {| extensions := Some {| http_status := Some 401 |} |}).
Proof.
  exact (proj1 (proj2 (proj2 (proj2
           (legacy_hook_differs_in_error_only sample_stringify sample_parse
              (Some "https://auth.example") (sample_options None (Some ["admin"]) None)
              (sample_params (Some "Bearer T"))
              (sample_world (Ok (sample_data "editor")) ∅) eq_refl (fun _ => eq_refl)))))
           "T" (sample_data "editor") eq_refl eq_refl eq_refl eq_refl eq_refl eq_refl).
Defined.

(** ** What a result of [authorize] tells *)

(** An identity is returned only for data that passed the role check, and
    that data is either what the provider just returned, with a valid
    session marker, or what a live cache entry for the token holds; its
    client is the one bound to the token. *)
Theorem authorize_success_is_justified
    (JSON_stringify : value -> string) (JSON_parse : string -> option value)
    (options : BetterAuthPluginOptions) (token : string)
    (pm : option PayloadMap) (rq : option Request) (w : World) (auth : BetterAuth) :
  fst (authorize JSON_stringify JSON_parse options token pm rq w) = Ok auth ->
  exists data,
    auth = identity_of (client_for options token w) data
    /\ client_token (client auth) = token
    /\ nullish data = false
    /\ role_check_passes (default [] (allowedRoles options)) data = true
    /\ ((provider w (client_for options token w) = Ok data
         /\ truthy (optional_member data "session") = true
         /\ (redis options = None
             \/ truthy_text (live_entry w (cache_key options token)) = false))
        \/ (redis options <> None
            /\ exists text, live_entry w (cache_key options token) = Some text
                 /\ text <> EmptyString /\ JSON_parse text = Some data)).
Proof.
  by_path JSON_stringify JSON_parse options token pm rq w.
  - destruct (provider w _) as [data|e] eqn:Hprov; [|discriminate].
    destruct (truthy (optional_member data "session")) eqn:Hsession; [|discriminate].
    destruct (0 <? _); [|discriminate].
    destruct (role_check_passes _ data) eqn:Hrole; [|discriminate].
    intros [= <-]. exists data. repeat split; try reflexivity; try assumption.
    + exact (truthy_session_not_nullish _ Hsession).
    + left. repeat split; try reflexivity; try assumption. right. cbn. rewrite Hempty. reflexivity.
  - destruct (JSON_parse text) as [data|] eqn:Hparse; [|discriminate].
    destruct (nullish data) eqn:Hdata; [discriminate|].
    destruct (role_check_passes _ data) eqn:Hrole;
      [|destruct (nullish (member data "user")); discriminate].
    intros [= <-]. exists data. repeat split; try reflexivity; try assumption.
    right. split; [discriminate|]. exists text. repeat split; try reflexivity; try assumption.
    intros ->. discriminate.
  - destruct (provider w _) as [data|e] eqn:Hprov; [|discriminate].
    destruct (truthy (optional_member data "session")) eqn:Hsession; [|discriminate].
    destruct (0 <? _); [|discriminate].
    destruct (role_check_passes _ data) eqn:Hrole; [|discriminate].
    intros [= <-]. exists data. repeat split; try reflexivity; try assumption.
    + exact (truthy_session_not_nullish _ Hsession).
    + left. repeat split; try reflexivity; try assumption. right. reflexivity.
  - discriminate.
  - destruct (provider w _) as [data|e] eqn:Hprov; [|discriminate].
    destruct (truthy (optional_member data "session")) eqn:Hsession; [|discriminate].
    destruct (role_check_passes _ data) eqn:Hrole; [|discriminate].
    intros [= <-]. exists data. repeat split; try reflexivity; try assumption.
    + exact (truthy_session_not_nullish _ Hsession).
    + left. repeat split; try reflexivity; try assumption. left. reflexivity.
  - discriminate.
Qed.

Lemma authorize_success_is_justified_witness :
  exists data,
    identity_of (bound_client (Some "https://auth.example") None "T") (sample_data "admin")
      = identity_of (client_for (sample_options None (Some ["admin"]) None) "T"
                       (sample_world (Ok (sample_data "admin")) ∅)) data
    /\ role_check_passes ["admin"] data = true.
Proof.
  destruct (authorize_success_is_justified sample_stringify sample_parse
              (sample_options None (Some ["admin"]) None) "T" None None
              (sample_world (Ok (sample_data "admin")) ∅)
              (identity_of (bound_client (Some "https://auth.example") None "T")
                 (sample_data "admin"))
              eq_refl) as (data & Hauth & _ & _ & Hrole & _).
  exists data. split; [exact Hauth | exact Hrole].
Defined.

(** The permission error leaves [authorize] only on a cache hit: when the
    two messages differ, a failure with the permission error means that a
    cache is configured and that a live entry for the token parsed to data
    that the role check refused. *)
Theorem permission_error_only_on_cache_hit
    (JSON_stringify : value -> string) (JSON_parse : string -> option value)
    (options : BetterAuthPluginOptions) (token : string)
    (pm : option PayloadMap) (rq : option Request) (w : World) :
  let msgs := effective_messages options in
  invalidPermissions msgs <> invalidToken msgs ->
  fst (authorize JSON_stringify JSON_parse options token pm rq w)
    = Throw (unauthorizedError (invalidPermissions msgs) None) ->
  redis options <> None
  /\ exists text data,
       live_entry w (cache_key options token) = Some text
       /\ JSON_parse text = Some data
       /\ role_check_passes (default [] (allowedRoles options)) data = false.
Proof.
  cbv zeta. intros Hdiffer.
  by_path JSON_stringify JSON_parse options token pm rq w;
    repeat case_match; cbn [fst]; unfold unauthorizedError, createGraphQLError;
    intros Heq; try discriminate Heq; try (injection Heq; congruence).
  split; [discriminate|]. eauto.
Qed.

Lemma permission_error_only_on_cache_hit_witness :
  redis (sample_options (Some redis_client) (Some ["admin"]) None) <> None
  /\ exists text data,
       live_entry (sample_world (Ok (sample_data "editor"))
                     {[ "tokens:T" := (data_text "editor", 105) ]})
         (cache_key (sample_options (Some redis_client) (Some ["admin"]) None) "T")
       = Some text
       /\ sample_parse text = Some data
       /\ role_check_passes
            (default [] (allowedRoles (sample_options (Some redis_client) (Some ["admin"]) None)))
            data = false.
Proof.
  refine (permission_error_only_on_cache_hit sample_stringify sample_parse
            (sample_options (Some redis_client) (Some ["admin"]) None) "T" None None
            (sample_world (Ok (sample_data "editor"))
               {[ "tokens:T" := (data_text "editor", 105) ]}) _ _).
  - vm_compute. discriminate.
  - vm_compute. reflexivity.
Defined.

(** The context-build hook changes nothing but the context, and in the
    context nothing but the field [extendContextField]. *)
Theorem onContextBuilding_frame
    (options : BetterAuthPluginOptions) (context context' : gmap string ContextValue)
    (w w' : World) :
  onContextBuilding options context w = (Ok context', w') ->
  w' = w
  /\ (forall field, field <> default "auth" (extendContextField options) ->
        context' !! field = context !! field)
  /\ (context' = context
      \/ exists r auth,
           context !! "request" = Some (CtxRequest r)
           /\ payloadByRequest w !! request_id r = Some auth
           /\ context' !! default "auth" (extendContextField options) = Some (CtxAuth auth)).
Proof.
  unfold onContextBuilding. run_monad.
  destruct (context !! "request") as [[r|a|v]|] eqn:Hrequest.
  - destruct (payloadByRequest w !! request_id r) as [auth|] eqn:Hpayload; intros [= <- <-].
    + split; [reflexivity|]. split.
      * intros field Hfield. apply lookup_insert_ne. congruence.
      * right. exists r, auth. repeat split; try reflexivity; try assumption.
        apply lookup_insert_eq.
    + repeat split; auto.
  - intros [= <- <-]. repeat split; auto.
  - destruct v; intros [=]; subst; repeat split; auto.
  - discriminate.
Qed.

Lemma onContextBuilding_frame_witness :
  onContextBuilding (sample_options None None None)
    {[ "request" := CtxRequest (sample_request None) ]} (sample_world (Ok VNull) ∅)
  = (Ok {[ "request" := CtxRequest (sample_request None) ]}, sample_world (Ok VNull) ∅)
  /\ sample_world (Ok VNull) ∅ = sample_world (Ok VNull) ∅.
Proof.
  assert (H : onContextBuilding (sample_options None None None)
                {[ "request" := CtxRequest (sample_request None) ]}
                (sample_world (Ok VNull) ∅)
              = (Ok {[ "request" := CtxRequest (sample_request None) ]},
                 sample_world (Ok VNull) ∅)).
  { unfold onContextBuilding. rewrite lookup_singleton_eq. reflexivity. }
  split; [exact H|].
  exact (proj1 (onContextBuilding_frame (sample_options None None None)
                  {[ "request" := CtxRequest (sample_request None) ]}
                  {[ "request" := CtxRequest (sample_request None) ]}
                  (sample_world (Ok VNull) ∅) (sample_world (Ok VNull) ∅) H)).
Defined.
